(** * torchquad: Monte Carlo integration pipeline

    A shallow embedding of [torchquad/integration/base_integrator.py] and
    [torchquad/integration/monte_carlo.py].

    Conventions of the embedding.
    - Backend numbers are idealised as exact rationals ([Q]); a tensor
      carries its backend and dtype as tags.  A cast between floating
      dtypes keeps the value (rounding is not modelled); a cast to an
      integer or boolean dtype changes it as numpy does.
    - Python exceptions are values of [exn]; a method of the integrator is
      a function from the [world] before the call to an outcome and the
      [world] after it.  A raised exception keeps the effects that
      happened before it, as in Python.
    - Calls into external collaborators ([rng.uniform], the integrand,
      [torch.jit.trace]) are recorded in the [log] of the world. *)

From Stdlib Require Import List ZArith QArith Bool Lia.
From Stdlib Require String DecimalString DecimalPos DecimalZ.
Import ListNotations.

Set Implicit Arguments.

(** ** Outcomes *)

Inductive exn : Type :=
| ValueError (code : nat)
| AttributeError
| IndexError
| TypeError
| IntegrandError (code : nat).

(** The [ValueError]s of the two source files, by message. *)
Definition E_DIM : nat := 0.        (* "Dimension needs to be 1 or larger." *)
Definition E_DIM_MATCH : nat := 1.  (* "Dimension of integration_domain needs to be match passed dim." *)
Definition E_N : nat := 2.          (* "N has to be a positive integer." *)
Definition E_BOUND : nat := 3.      (* "... does not specify a valid integration bound." *)
Definition E_SEED_RNG : nat := 4.   (* "seed and rng cannot both be passed" *)
Definition E_BACKEND : nat := 5.    (* "Compilation not implemented for backend ..." *)
Definition E_STACK : nat := 6.      (* raised by anp.stack: empty list, or columns of unequal length *)

Inductive result (A : Type) : Type :=
| Ok (a : A)
| Raise (e : exn).
Arguments Ok {A} a.
Arguments Raise {A} e.

Definition rbind {A B} (r : result A) (k : A -> result B) : result B :=
  match r with
  | Ok a => k a
  | Raise e => Raise e
  end.

Notation "'let?' x ':=' r 'in' k" := (rbind r (fun x => k))
  (at level 10, x pattern, r at level 100, k at level 200).

(** ** Tensors and Python values *)

Inductive backend : Type := torch | numpy | tensorflow | jax.

Inductive dtype : Type := float32 | float64.

Definition backend_eqb (a b : backend) : bool :=
  match a, b with
  | torch, torch | numpy, numpy | tensorflow, tensorflow | jax, jax => true
  | _, _ => false
  end.

Definition dtype_eqb (a b : dtype) : bool :=
  match a, b with
  | float32, float32 | float64, float64 => true
  | _, _ => false
  end.

(** The dtype of a tensor: one of the floating dtypes above, or an integer
    or boolean dtype (what an indicator or a counting integrand returns). *)
Inductive any_dtype : Type :=
| Floating (d : dtype)
| int64
| bool_.

Coercion Floating : dtype >-> any_dtype.

Definition any_dtype_eqb (a b : any_dtype) : bool :=
  match a, b with
  | Floating x, Floating y => dtype_eqb x y
  | int64, int64 | bool_, bool_ => true
  | _, _ => false
  end.

Definition is_floating (d : any_dtype) : bool :=
  match d with
  | Floating _ => true
  | _ => false
  end.

(** Arrays of rank 0, 1 and 2 (a rank-2 array is a list of rows). *)
Inductive array : Type :=
| A0 (x : Q)
| A1 (xs : list Q)
| A2 (rows : list (list Q)).

Record tensor : Type := mkTensor {
  t_backend : backend;
  t_dtype : any_dtype;
  t_arr : array
}.

(** What an integrand may hand back: a bare Python number (which has no
    [shape]) or a backend tensor. *)
Inductive pyvalue : Type :=
| PyNumber (x : Q)
| PyTensor (t : tensor).

(** A Python number passed for [N]. *)
Inductive pynum : Type :=
| PyInt (z : Z)
| PyFloat (q : Q).

(** The [integration_domain] argument as the caller supplies it. *)
Inductive domain_arg : Type :=
| PyList (rows : list (list Q))
| BackendTensor (t : tensor).

Definition integrand : Type := tensor -> result pyvalue.

(** [infer_backend] of autoray. *)
Definition infer_backend (t : tensor) : backend := t_backend t.

(** [x.shape[0]] for a tensor. *)
Definition shape0 (a : array) : result nat :=
  match a with
  | A0 _ => Raise IndexError
  | A1 xs => Ok (length xs)
  | A2 rows => Ok (length rows)
  end.

(** [len(x)] for a tensor. *)
Definition len_arr (a : array) : result nat :=
  match a with
  | A0 _ => Raise TypeError
  | A1 xs => Ok (length xs)
  | A2 rows => Ok (length rows)
  end.

(** [function_values.shape[0]] for whatever the integrand returned. *)
Definition pyvalue_shape0 (v : pyvalue) : result nat :=
  match v with
  | PyNumber _ => Raise AttributeError
  | PyTensor t => shape0 (t_arr t)
  end.

Definition Qsum (xs : list Q) : Q := fold_left Qplus xs 0.
Definition Qprod (xs : list Q) : Q := fold_left Qmult xs 1.

(** [anp.sum]: the sum of all entries. *)
Definition arr_sum (a : array) : Q :=
  match a with
  | A0 x => x
  | A1 xs => Qsum xs
  | A2 rows => Qsum (map Qsum rows)
  end.

(** [t[:, k]]: column [k] of a table. *)
Fixpoint column (k : nat) (rows : list (list Q)) : result (list Q) :=
  match rows with
  | [] => Ok []
  | r :: rows' =>
      match nth_error r k with
      | None => Raise IndexError
      | Some x => rbind (column k rows') (fun xs => Ok (x :: xs))
      end
  end.

Definition arr_column (k : nat) (a : array) : result (list Q) :=
  match a with
  | A2 rows => column k rows
  | _ => Raise IndexError
  end.

(** [t[d, k]]. *)
Definition arr_index2 (d k : nat) (a : array) : result Q :=
  match a with
  | A2 rows =>
      match nth_error rows d with
      | Some r =>
          match nth_error r k with
          | Some x => Ok x
          | None => Raise IndexError
          end
      | None => Raise IndexError
      end
  | _ => Raise IndexError
  end.

(** Elementwise difference of two vectors of one length. *)
Fixpoint vsub (xs ys : list Q) : list Q :=
  match xs, ys with
  | x :: xs', y :: ys' => (x - y) :: vsub xs' ys'
  | _, _ => []
  end.

(** [anp.stack(cols, axis=1)] for [n]-vectors: row [i] collects entry [i]
    of every column. *)
Fixpoint rows_of_columns (n : nat) (cols : list (list Q)) : list (list Q) :=
  match n with
  | O => []
  | S n' => map (hd 0) cols :: rows_of_columns n' (map (@tl Q) cols)
  end.

Definition stack_axis1 (cols : list (list Q)) : result (list (list Q)) :=
  match cols with
  | [] => Raise (ValueError E_STACK)
  | c :: _ =>
      if forallb (fun c' => Nat.eqb (length c') (length c)) cols
      then Ok (rows_of_columns (length c) cols)
      else Raise (ValueError E_STACK)
  end.

(** ** The integrator instance and the world around it *)

Definition rng_state : Type := Z.

(** The attributes of [BaseIntegrator], and the attributes which
    [MonteCarlo.jit_integrate] adds to the instance ([hasattr] is the
    boolean). *)
Record MonteCarlo : Type := mkMonteCarlo {
  _fn : option integrand;
  _dim : option Z;
  _integration_domain : option tensor;
  _nr_of_fevals : Z;
  _convergence_order : Z;
  _tf_jit_calculate_sample_points : bool;
  _tf_jit_calculate_result : bool;
  _jax_jit_calculate_sample_points : bool;
  _jax_jit_calculate_result : bool
}.

(** The closure [compiled_integrate] which [do_compile] returns: the traced
    [step1] keeps [N], [seed] and [rng] of the enclosing [jit_integrate]. *)
Record artifact : Type := mkArtifact {
  step1_N : pynum;
  step1_seed : option Z;
  step1_rng : option nat
}.

Inductive event : Type :=
| EvUniform (n : nat)     (* rng.uniform(size=[n]) *)
| EvIntegrand             (* the integrand was called on a batch *)
| EvTrace (step : nat).   (* torch.jit.trace of step 1 or step 3 *)

Record world : Type := mkWorld {
  self : MonteCarlo;
  global_gen : rng_state;            (* the generator an unseeded RNG draws from *)
  gens : list rng_state;             (* caller-owned RNG objects, by reference *)
  cells : list (option artifact);    (* the [compiled_func] lists of the closures *)
  log : list event
}.

Definition M (A : Type) : Type := world -> result A * world.

Definition ret {A} (a : A) : M A := fun w => (Ok a, w).
Definition raise {A} (e : exn) : M A := fun w => (Raise e, w).
Definition bind {A B} (m : M A) (k : A -> M B) : M B :=
  fun w =>
    match m w with
    | (Ok a, w') => k a w'
    | (Raise e, w') => (Raise e, w')
    end.
Definition lift {A} (r : result A) : M A := fun w => (r, w).

Notation "'do' x '<-' m ';' k" := (bind m (fun x => k))
  (at level 10, x pattern, m at level 100, k at level 200).

Definition emit (e : event) : M unit :=
  fun w => (Ok tt, mkWorld (self w) (global_gen w) (gens w) (cells w) (log w ++ [e])).

Definition set_self (s : MonteCarlo) : M unit :=
  fun w => (Ok tt, mkWorld s (global_gen w) (gens w) (cells w) (log w)).

Definition set_global_gen (g : rng_state) : M unit :=
  fun w => (Ok tt, mkWorld (self w) g (gens w) (cells w) (log w)).

Definition set_gens (gs : list rng_state) : M unit :=
  fun w => (Ok tt, mkWorld (self w) (global_gen w) gs (cells w) (log w)).

Definition set_cells (cs : list (option artifact)) : M unit :=
  fun w => (Ok tt, mkWorld (self w) (global_gen w) (gens w) cs (log w)).

Definition get {A} (f : world -> A) : M A := fun w => (Ok (f w), w).

Fixpoint update {A} (i : nat) (x : A) (l : list A) : list A :=
  match l, i with
  | [], _ => []
  | _ :: l', O => x :: l'
  | y :: l', S i' => y :: update i' x l'
  end.

(** ** base_integrator.py *)

(** [BaseIntegrator.__init__] (the class attributes start as [None]). *)
Definition BaseIntegrator_init : MonteCarlo :=
  mkMonteCarlo None None None 0 (-1) false false false false.

Definition with_nr_of_fevals (n : Z) (s : MonteCarlo) : MonteCarlo :=
  mkMonteCarlo (_fn s) (_dim s) (_integration_domain s) n
    (_convergence_order s)
    (_tf_jit_calculate_sample_points s) (_tf_jit_calculate_result s)
    (_jax_jit_calculate_sample_points s) (_jax_jit_calculate_result s).

(** [BaseIntegrator._eval]. *)
Definition _eval (points : tensor) : M pyvalue :=
  do n <- lift (len_arr (t_arr points));
  do s <- get self;
  do _ <- set_self (with_nr_of_fevals (_nr_of_fevals s + Z.of_nat n) s);
  match _fn s with
  | None => raise TypeError
  | Some f => do _ <- emit EvIntegrand; lift (f points)
  end.

(** [len(integration_domain)]. *)
Definition domain_len (d : domain_arg) : result nat :=
  match d with
  | PyList rows => Ok (length rows)
  | BackendTensor t => len_arr (t_arr t)
  end.

(** The loop [for bounds in integration_domain] of [_check_inputs]. *)
Fixpoint check_bounds (rows : list (list Q)) : result unit :=
  match rows with
  | [] => Ok tt
  | bounds :: rest =>
      if negb (Nat.eqb (length bounds) 2) then Raise (ValueError E_BOUND)
      else if negb (Qle_bool (nth 0 bounds 0) (nth 1 bounds 0))
      then Raise (ValueError E_BOUND)
      else check_bounds rest
  end.

(** What iterating over the domain yields: the pairs of a list, the rows of
    a table; the entries of a vector are scalars, on which [len] fails. *)
Definition check_domain_bounds (d : domain_arg) : result unit :=
  match d with
  | PyList rows => check_bounds rows
  | BackendTensor t =>
      match t_arr t with
      | A2 rows => check_bounds rows
      | A1 [] => Ok tt
      | _ => Raise TypeError
      end
  end.

Definition pynum_lt_1 (N : pynum) : bool :=
  match N with
  | PyInt z => (z <? 1)%Z
  | PyFloat q => negb (Qle_bool 1 q)
  end.

Definition type_is_int (N : pynum) : bool :=
  match N with
  | PyInt _ => true
  | PyFloat _ => false
  end.

(** [N < 1 or type(N) is not int]. *)
Definition N_rejected (N : pynum) : bool :=
  pynum_lt_1 N || negb (type_is_int N).

(** [BaseIntegrator._check_inputs]. *)
Definition _check_inputs (dim : option Z) (N : option pynum)
    (integration_domain : option domain_arg) : result unit :=
  let? _ :=
    match dim with
    | None => Ok tt
    | Some dim =>
        if (dim <? 1)%Z then Raise (ValueError E_DIM)
        else
          match integration_domain with
          | None => Ok tt
          | Some d =>
              let? n := domain_len d in
              if negb (dim =? Z.of_nat n)%Z
              then Raise (ValueError E_DIM_MATCH)
              else Ok tt
          end
    end in
  let? _ :=
    match N with
    | None => Ok tt
    | Some N => if N_rejected N then Raise (ValueError E_N) else Ok tt
    end in
  match integration_domain with
  | None => Ok tt
  | Some d => check_domain_bounds d
  end.

(** ** monte_carlo.py *)

Definition E_SIZE : nat := 7.   (* a negative size passed to rng.uniform *)
Definition E_STATIC_ARGNAMES : nat := 8.
                                (* jax.jit: static_argnames that the function does not have *)

(** The size [N] of [rng.uniform(size=[N])]. *)
Definition size_of (N : pynum) : result nat :=
  match N with
  | PyInt z => if (z <? 0)%Z then Raise (ValueError E_SIZE) else Ok (Z.to_nat z)
  | PyFloat _ => Raise TypeError
  end.

(** Modelled from the spec: the default floating type of a backend, which
    [utils._setup_integration_domain] (missing) gives a domain built from a
    Python list. *)
Definition default_dtype (b : backend) : dtype :=
  match b with
  | numpy => float64
  | _ => float32
  end.

(** Modelled from the spec: [utils._setup_integration_domain] (missing).
    "Output: canonical domain table plus the resolved numeric backend
    (inferred from the supplied domain object when possible; otherwise
    taken from the hint).  Default when no domain given: symmetric box
    [-1, 1] in each of dim dimensions.  No side effects." *)
Definition _setup_integration_domain (dim : Z)
    (integration_domain : option domain_arg) (backend : backend)
    : result tensor :=
  match integration_domain with
  | None =>
      Ok (mkTensor backend (default_dtype backend)
            (A2 (repeat [-1; 1] (Z.to_nat dim))))
  | Some (PyList rows) =>
      Ok (mkTensor backend (default_dtype backend) (A2 rows))
  | Some (BackendTensor t) => Ok t
  end.

(** Modelled from the spec: [utils.RNG] (missing).  A generator is "either
    freshly constructed from a seed (deterministic, owned by the call) or
    supplied by the caller"; "if neither is given, a generator is created
    internally with no fixed seed". *)
Inductive RNG : Type :=
| SeededRNG (g : rng_state)   (* RNG(backend, seed=s), local to the call *)
| UnseededRNG                 (* RNG(backend, seed=None) *)
| CallerRNG (r : nat).        (* the caller's object *)

Definition RNG_new (seed : option Z) : RNG :=
  match seed with
  | Some s => SeededRNG s
  | None => UnseededRNG
  end.

Definition promote (a b : dtype) : dtype :=
  match a, b with
  | float32, float32 => float32
  | _, _ => float64
  end.

(** A value cast to a dtype: kept by a floating dtype, truncated toward
    zero by an integer dtype, and turned into 0 or 1 by the boolean one. *)
Definition cast_value (d : any_dtype) (x : Q) : Q :=
  match d with
  | Floating _ => x
  | int64 => inject_Z (Z.quot (Qnum x) (Zpos (Qden x)))
  | bool_ => if Qeq_bool x 0 then 0 else 1
  end.

Definition arr_map (f : Q -> Q) (a : array) : array :=
  match a with
  | A0 x => A0 (f x)
  | A1 xs => A1 (map f xs)
  | A2 rows => A2 (map (map f) rows)
  end.

(** [t.astype(d)]. *)
Definition astype (d : any_dtype) (t : tensor) : tensor :=
  mkTensor (t_backend t) d (arr_map (cast_value d) (t_arr t)).

(** Arrays of numpy and jax have the method [astype]; tensors of torch and
    tensorflow do not. *)
Definition has_astype (b : backend) : bool :=
  match b with
  | numpy | jax => true
  | torch | tensorflow => false
  end.

Definition float_of (b : backend) (d : any_dtype) : dtype :=
  match d with
  | Floating x => x
  | _ => default_dtype b
  end.

(** The floating dtype of a product and true division within backend [b]. *)
Definition promote_any (b : backend) (a c : any_dtype) : dtype :=
  match a, c with
  | Floating x, Floating y => promote x y
  | Floating x, _ => x
  | _, Floating y => y
  | _, _ => default_dtype b
  end.

(** The backend and dtype of [volume * anp.sum(function_values) / N].  On
    one backend: float64 on numpy ("Numpy automatically casts to float64
    when dividing by N"), the promoted dtype elsewhere.  When one of the
    two operands is on numpy and the other is not, the numpy scalar acts as
    a plain number and the result has the backend and dtype of the other
    operand; two different backends other than numpy are not meant to meet,
    and the tags given for them are those of the domain. *)
Definition quotient_kind (integration_domain fv : tensor) : backend * dtype :=
  let bd := t_backend integration_domain in
  let bf := t_backend fv in
  if backend_eqb bd bf then
    (bd, if backend_eqb bd numpy then float64
         else promote_any bd (t_dtype integration_domain) (t_dtype fv))
  else if backend_eqb bf numpy then
    (bd, float_of bd (t_dtype integration_domain))
  else if backend_eqb bd numpy then (bf, float_of bf (t_dtype fv))
  else (bd, promote_any bd (t_dtype integration_domain) (t_dtype fv)).

(** [MonteCarlo.calculate_result].  Dividing by [N = 0] gives 0 here where a
    backend gives inf or nan (no exception is raised in either): statements
    about the value are for non-empty function values. *)
Definition calculate_result (function_values : pyvalue)
    (integration_domain : tensor) : result tensor :=
  let? upper := arr_column 1 (t_arr integration_domain) in
  let? lower := arr_column 0 (t_arr integration_domain) in
  let scales := vsub upper lower in
  let volume := Qprod scales in
  let? N := pyvalue_shape0 function_values in
  match function_values with
  | PyNumber _ => Raise AttributeError
  | PyTensor fv =>
      let integral :=
        mkTensor (fst (quotient_kind integration_domain fv))
          (snd (quotient_kind integration_domain fv))
          (A0 (volume * arr_sum (t_arr fv) / inject_Z (Z.of_nat N))) in
      if backend_eqb (infer_backend integration_domain) numpy
         && negb (any_dtype_eqb (t_dtype fv) (t_dtype integral))
      then
        if has_astype (t_backend integral)
        then Ok (astype (t_dtype fv) integral)
        else Raise AttributeError
      else Ok integral
  end.

Section Pipeline.

(** One draw of the uniform generator: a value and the next state. *)
Variable draw : rng_state -> Q * rng_state.

Fixpoint uniform (g : rng_state) (n : nat) : list Q * rng_state :=
  match n with
  | O => ([], g)
  | S n' =>
      let (u, g1) := draw g in
      let (us, g2) := uniform g1 n' in
      (u :: us, g2)
  end.

(** Modelled from the spec: [RNG.uniform(size=[N])] (missing); the state
    lives in the generator object and persists when it is the caller's. *)
Definition rng_uniform (rng : RNG) (N : pynum) : M (list Q * RNG) :=
  do n <- lift (size_of N);
  do _ <- emit (EvUniform n);
  match rng with
  | SeededRNG g =>
      let (us, g') := uniform g n in ret (us, SeededRNG g')
  | UnseededRNG =>
      do g <- get global_gen;
      let (us, g') := uniform g n in
      do _ <- set_global_gen g';
      ret (us, UnseededRNG)
  | CallerRNG r =>
      do gs <- get gens;
      match nth_error gs r with
      | None => raise AttributeError
      | Some g =>
          let (us, g') := uniform g n in
          do _ <- set_gens (update r g' gs);
          ret (us, CallerRNG r)
      end
  end.

(** The loop [for d in range(dim)] of [calculate_sample_points]. *)
Fixpoint sample_loop (ds : list nat) (N : pynum) (integration_domain : tensor)
    (rng : RNG) (sample_points : list (list Q)) : M (list (list Q)) :=
  match ds with
  | [] => ret sample_points
  | d :: ds' =>
      do hi <- lift (arr_index2 d 1 (t_arr integration_domain));
      do lo <- lift (arr_index2 d 0 (t_arr integration_domain));
      let scale := hi - lo in
      do offset <- lift (arr_index2 d 0 (t_arr integration_domain));
      do (us, rng') <- rng_uniform rng N;
      sample_loop ds' N integration_domain rng'
        (sample_points ++ [map (fun u => u * scale + offset) us])
  end.

(** [MonteCarlo.calculate_sample_points]. *)
Definition calculate_sample_points (N : pynum) (integration_domain : tensor)
    (seed : option Z) (rng : option nat) : M tensor :=
  do rng <-
    match rng with
    | None => ret (RNG_new seed)
    | Some r =>
        match seed with
        | Some _ => raise (ValueError E_SEED_RNG)
        | None => ret (CallerRNG r)
        end
    end;
  do dim <- lift (shape0 (t_arr integration_domain));
  do sample_points <- sample_loop (seq 0 dim) N integration_domain rng [];
  do rows <- lift (stack_axis1 sample_points);
  ret (mkTensor (t_backend integration_domain) (t_dtype integration_domain)
         (A2 rows)).

(** Modelled from the spec: [evaluate_integrand] (missing from
    base_integrator.py).  "Output: FunctionValues and an incremented
    evaluation count (old count + N).  The integrand's return shape/dtype
    is not validated here ...  counter update is a value returned to the
    caller, not a hidden mutation". *)
Definition evaluate_integrand (fn : integrand) (points : tensor)
    : M (pyvalue * Z) :=
  do _ <- emit EvIntegrand;
  do function_values <- lift (fn points);
  do n <- lift (shape0 (t_arr points));
  do s <- get self;
  ret (function_values, _nr_of_fevals s + Z.of_nat n)%Z.

(** [MonteCarlo.integrate]. *)
Definition integrate (fn : integrand) (dim : Z) (N : pynum)
    (integration_domain : option domain_arg) (seed : option Z)
    (rng : option nat) (backend : backend) : M tensor :=
  do _ <- lift (_check_inputs (Some dim) (Some N) integration_domain);
  do integration_domain <-
    lift (_setup_integration_domain dim integration_domain backend);
  do sample_points <- calculate_sample_points N integration_domain seed rng;
  do (function_values, n) <- evaluate_integrand fn sample_points;
  do s <- get self;
  do _ <- set_self (with_nr_of_fevals n s);
  lift (calculate_result function_values integration_domain).

(** The callables which [jit_integrate] returns, as closures over the
    variables they capture. *)
Inductive callable : Type :=
| compiled_integrate (b : backend) (N : pynum) (seed : option Z)
    (rng : option nat)
| lazy_compiled_integrate (compiled_func : nat) (N : pynum)
    (integration_domain : tensor) (seed : option Z) (rng : option nat).

Definition with_tf_jit (s : MonteCarlo) : MonteCarlo :=
  mkMonteCarlo (_fn s) (_dim s) (_integration_domain s) (_nr_of_fevals s)
    (_convergence_order s) true true
    (_jax_jit_calculate_sample_points s) (_jax_jit_calculate_result s).

(** The instance after the first of the two assignments of the jax
    branch. *)
Definition with_jax_jit_calculate_sample_points (s : MonteCarlo) : MonteCarlo :=
  mkMonteCarlo (_fn s) (_dim s) (_integration_domain s) (_nr_of_fevals s)
    (_convergence_order s)
    (_tf_jit_calculate_sample_points s) (_tf_jit_calculate_result s)
    true (_jax_jit_calculate_result s).

(** [MonteCarlo.jit_integrate].  [tf.function] only wraps.  [jax.jit]
    checks its [static_argnames] against the parameters of the function it
    wraps: [calculate_sample_points] has [N], but [calculate_result] has
    neither [dim] nor [n_per_dim], so the second [jax.jit] raises after the
    first wrapper has been stored.  [hasattr] looks at the first wrapper
    only; reading a second wrapper which is not there raises
    AttributeError.  The torch branch allocates the list
    [compiled_func = [None]]. *)
Definition jit_integrate (dim : Z) (N : pynum)
    (integration_domain : option domain_arg) (seed : option Z)
    (rng : option nat) (backend : backend) : M callable :=
  do _ <- lift (_check_inputs (Some dim) (Some N) integration_domain);
  do integration_domain <-
    lift (_setup_integration_domain dim integration_domain backend);
  let backend := infer_backend integration_domain in
  match backend with
  | tensorflow =>
      do s <- get self;
      do _ <- (if _tf_jit_calculate_sample_points s then ret tt
               else set_self (with_tf_jit s));
      do s' <- get self;
      if _tf_jit_calculate_result s'
      then ret (compiled_integrate tensorflow N seed rng)
      else raise AttributeError
  | jax =>
      do s <- get self;
      do _ <- (if _jax_jit_calculate_sample_points s then ret tt
               else
                 do _ <- set_self (with_jax_jit_calculate_sample_points s);
                 raise (ValueError E_STATIC_ARGNAMES));
      do s' <- get self;
      if _jax_jit_calculate_result s'
      then ret (compiled_integrate jax N seed rng)
      else raise AttributeError
  | torch =>
      do cs <- get cells;
      do _ <- set_cells (cs ++ [None]);
      ret (lazy_compiled_integrate (length cs) N integration_domain seed rng)
  | numpy => raise (ValueError E_BACKEND)
  end.

(** The three steps shared by both [compiled_integrate] closures.
    Modelled from the spec: what a jitted or traced step does when it is
    called is the business of tensorflow, jax and torch; it is taken to
    behave as the method it wraps ("compiled/uncompiled equivalence"). *)
Definition compiled_steps (N : pynum) (seed : option Z) (rng : option nat)
    (fn : integrand) (integration_domain : tensor) : M tensor :=
  do sample_points <- calculate_sample_points N integration_domain seed rng;
  do (function_values, _) <- evaluate_integrand fn sample_points;
  lift (calculate_result function_values integration_domain).

(** [do_compile] of the torch branch.  [torch.jit.trace] runs the traced
    function once on its example input; calling the traced [step1]
    afterwards is taken to behave as [calculate_sample_points] (see
    [compiled_steps]). *)
Definition do_compile (N : pynum) (integration_domain : tensor)
    (seed : option Z) (rng : option nat) (example_integrand : integrand)
    : M artifact :=
  do _ <- emit (EvTrace 1);
  do _ <- calculate_sample_points N integration_domain seed rng;
  do sample_points <- calculate_sample_points N integration_domain seed rng;
  do (function_values, _) <- evaluate_integrand example_integrand sample_points;
  do _ <- emit (EvTrace 3);
  do _ <- lift (calculate_result function_values integration_domain);
  ret (mkArtifact N seed rng).

(** Calling what [jit_integrate] returned: [compiled_integrate] of the
    tensorflow/jax branch, or [lazy_compiled_integrate]. *)
Definition call (c : callable) (fn : integrand) (integration_domain : tensor)
    : M tensor :=
  match c with
  | compiled_integrate _ N seed rng =>
      compiled_steps N seed rng fn integration_domain
  | lazy_compiled_integrate compiled_func N dom0 seed rng =>
      do cs <- get cells;
      match nth_error cs compiled_func with
      | None => raise AttributeError
      | Some None =>
          do a <- do_compile N dom0 seed rng fn;
          do cs' <- get cells;
          do _ <- set_cells (update compiled_func (Some a) cs');
          compiled_steps (step1_N a) (step1_seed a) (step1_rng a)
            fn integration_domain
      | Some (Some a) =>
          compiled_steps (step1_N a) (step1_seed a) (step1_rng a)
            fn integration_domain
      end
  end.

End Pipeline.

(** ** A concrete generator and concrete worlds, for examples *)

Definition lcg (g : rng_state) : Q * rng_state :=
  let g' := ((g * 1103515245 + 12345) mod 2147483648)%Z in
  (inject_Z g' / inject_Z 2147483648, g').

Definition fresh_world : world :=
  mkWorld BaseIntegrator_init 7%Z [] [] [].

Definition constant_batch (c : Q) : integrand :=
  fun points =>
    match t_arr points with
    | A2 rows => Ok (PyTensor (mkTensor (t_backend points) (t_dtype points)
                                 (A1 (map (fun _ => c) rows))))
    | _ => Raise (IntegrandError 0)
    end.

Definition first_coordinate : integrand :=
  fun points =>
    match t_arr points with
    | A2 rows => Ok (PyTensor (mkTensor (t_backend points) (t_dtype points)
                                 (A1 (map (hd 0) rows))))
    | _ => Raise (IntegrandError 0)
    end.

Definition world_with_generator : world :=
  mkWorld BaseIntegrator_init 7%Z [11%Z] [] [].

(** The integrand [lambda x: 2]. *)
Definition constant_two : integrand := fun _ => Ok (PyNumber 2).


(** Two requests to [jit_integrate] on one integrator instance, and one
    invocation of each of the two callables. *)
Definition two_requests_run : result tensor * world :=
  let request :=
    jit_integrate 1 (PyInt 2) (Some (PyList [[0; 1]])) (Some 0%Z) None torch in
  let dom := mkTensor torch float32 (A2 [[0; 1]]) in
  match request fresh_world with
  | (Ok c1, w1) =>
      match request w1 with
      | (Ok c2, w2) =>
          match call lcg c1 first_coordinate dom w2 with
          | (Ok _, w3) => call lcg c2 first_coordinate dom w3
          | other => other
          end
      | (Raise e, w2) => (Raise e, w2)
      end
  | (Raise e, w1) => (Raise e, w1)
  end.

(** ** Notions used in the statements *)

Definition pair_row (p : Q * Q) : list Q := [fst p; snd p].

(** The volume of a box given by its (lower, upper) pairs. *)
Definition volume (pairs : list (Q * Q)) : Q :=
  Qprod (map (fun p => snd p - fst p) pairs).

(** The rows which iterating over a domain argument yields, when it is a
    list of lists or a table. *)
Definition domain_rows (d : domain_arg) : option (list (list Q)) :=
  match d with
  | PyList rows => Some rows
  | BackendTensor t =>
      match t_arr t with
      | A2 rows => Some rows
      | _ => None
      end
  end.

Definition wellformed_domain (d : option domain_arg) : Prop :=
  match d with
  | None => True
  | Some d => domain_rows d <> None
  end.

Definition positive_integer (N : pynum) : Prop :=
  exists z, N = PyInt z /\ (1 <= z)%Z.

(** A bound pair the validation has to refuse. *)
Definition bad_bounds (r : list Q) : Prop :=
  length r <> 2%nat \/ exists lo hi, r = [lo; hi] /\ hi < lo.

Definition invalid_inputs (dim : Z) (N : pynum) (d : option domain_arg)
    : Prop :=
  (dim < 1)%Z \/
  ~ positive_integer N \/
  exists d' rows,
    d = Some d' /\ domain_rows d' = Some rows /\
    (Z.of_nat (length rows) <> dim \/ Exists bad_bounds rows).

(** The callable has not built its artifact (a [compiled_integrate] of the
    tensorflow/jax branch never builds one). *)
Definition not_compiled (c : callable) (w : world) : Prop :=
  match c with
  | compiled_integrate _ _ _ _ => True
  | lazy_compiled_integrate k _ _ _ _ => nth_error (cells w) k = Some None
  end.

(** The reduction of [M] function values over a box, as [calculate_result]
    writes it. *)
Definition reduction (pairs : list (Q * Q)) (fvs : list Q) : Q :=
  volume pairs * Qsum fvs / inject_Z (Z.of_nat (length fvs)).

(** The generator state a call of [calculate_sample_points] starts from:
    the seed, the state of the unseeded generator, or the state of the
    caller's object. *)
Definition generator (seed : option Z) (rng : option nat) (w : world)
    : option rng_state :=
  match rng, seed with
  | None, Some s => Some s
  | None, None => Some (global_gen w)
  | Some r, None => nth_error (gens w) r
  | Some _, Some _ => None
  end.

Definition rng_state_of (rng : RNG) (w : world) : option rng_state :=
  match rng with
  | SeededRNG g => Some g
  | UnseededRNG => Some (global_gen w)
  | CallerRNG r => nth_error (gens w) r
  end.

(** The first [dim] batches of [n] values which a generator in state [g]
    hands out, in the order it hands them out. *)
Fixpoint batches (draw : rng_state -> Q * rng_state) (g : rng_state)
    (dim n : nat) : list (list Q) :=
  match dim with
  | O => []
  | S dim' =>
      let (us, g') := uniform draw g n in
      us :: batches draw g' dim' n
  end.

(** The columns of sample points over a box: batch [d], scaled and shifted
    by the bounds of dimension [d]. *)
Fixpoint columns (draw : rng_state -> Q * rng_state) (g : rng_state)
    (pairs : list (Q * Q)) (n : nat) : list (list Q) :=
  match pairs with
  | [] => []
  | p :: pairs' =>
      let (us, g') := uniform draw g n in
      map (fun u => u * (snd p - fst p) + fst p) us
        :: columns draw g' pairs' n
  end.

Definition holds_artifact (c : option artifact) : bool :=
  match c with
  | Some _ => true
  | None => false
  end.

(** How many artifacts have been built and are cached in a world. *)
Definition built_artifacts (w : world) : nat :=
  length (filter holds_artifact (cells w)).

(** A method keeps a component [f] of the world, whatever its outcome. *)
Definition keeps {A B} (f : world -> B) (m : M A) : Prop :=
  forall w, f (snd (m w)) = f w.

Definition is_trace (e : event) : bool :=
  match e with
  | EvTrace _ => true
  | _ => false
  end.

(** How many [torch.jit.trace] calls a log holds. *)
Definition n_traces (l : list event) : nat := length (filter is_trace l).

(** Components which the generators do not reach. *)
Definition rng_blind {B} (f : world -> B) : Prop :=
  forall s gg gs cs l gg' gs',
    f (mkWorld s gg gs cs l) = f (mkWorld s gg' gs' cs l).

(** Components which a draw or an integrand call leaves alone. *)
Definition quiet {B} (f : world -> B) : Prop :=
  rng_blind f /\
  forall e, is_trace e = false -> keeps f (emit e).

(** A bound pair the validation lets through. *)
Definition valid_bounds (r : list Q) : Prop :=
  exists lo hi, r = [lo; hi] /\ lo <= hi.

Definition valid_inputs (dim : Z) (N : pynum) (d : option domain_arg)
    : Prop :=
  (1 <= dim)%Z /\
  positive_integer N /\
  match d with
  | None => True
  | Some d' =>
      exists rows,
        domain_rows d' = Some rows /\
        Z.of_nat (length rows) = dim /\ Forall valid_bounds rows
  end.

(** The entrywise combination a * f + b * g of two vectors. *)
Fixpoint lincomb (a b : Q) (fs gs : list Q) : list Q :=
  match fs, gs with
  | f :: fs', g :: gs' => (a * f + b * g) :: lincomb a b fs' gs'
  | _, _ => []
  end.

(** The integrand a * f + b * g, for integrands which return vectors. *)
Definition lincomb_integrand (a b : Q) (f g : integrand) : integrand :=
  fun points =>
    let? vf := f points in
    let? vg := g points in
    match vf, vg with
    | PyTensor tf, PyTensor tg =>
        match t_arr tf, t_arr tg with
        | A1 fs, A1 gs =>
            Ok (PyTensor (mkTensor (t_backend tf) (t_dtype tf)
                            (A1 (lincomb a b fs gs))))
        | _, _ => Raise (IntegrandError 0)
        end
    | _, _ => Raise (IntegrandError 0)
    end.

(** The table of sample points of a seeded or otherwise known generator
    state [g]: [n] rows, one column per bound pair. *)
Definition sample_table (draw : rng_state -> Q * rng_state) (g : rng_state)
    (pairs : list (Q * Q)) (n : nat) : list (list Q) :=
  rows_of_columns n (columns draw g pairs n).

(** The state of a generator after [dim] batches of [n] draws. *)
Fixpoint after_batches (draw : rng_state -> Q * rng_state) (g : rng_state)
    (dim n : nat) : rng_state :=
  match dim with
  | O => g
  | S dim' => after_batches draw (snd (uniform draw g n)) dim' n
  end.

Definition is_eval (e : event) : bool :=
  match e with
  | EvIntegrand => true
  | _ => false
  end.

(** How many calls of the integrand a log holds. *)
Definition n_evals (l : list event) : nat := length (filter is_eval l).

(** An integrand which raises on every batch. *)
Definition raising_integrand : integrand := fun _ => Raise (IntegrandError 1).

(** A world in which one torch callable exists and has not compiled yet. *)
Definition world_with_empty_cell : world :=
  mkWorld BaseIntegrator_init 7%Z [] [None] [].

(** ** utils/enable_cuda.py *)

Module Cuda.

Import String.
Local Open Scope string_scope.








End Cuda.

(** ** The monad *)

Lemma keeps_ret {A B} (f : world -> B) (a : A) : keeps f (ret a).
Proof. intro w; reflexivity. Qed.

Lemma keeps_raise {A B} (f : world -> B) (e : exn) : keeps f (@raise A e).
Proof. intro w; reflexivity. Qed.

Lemma keeps_lift {A B} (f : world -> B) (r : result A) : keeps f (lift r).
Proof. intro w; reflexivity. Qed.

Lemma keeps_get {A B} (f : world -> B) (g : world -> A) : keeps f (get g).
Proof. intro w; reflexivity. Qed.

Lemma keeps_bind {A B C} (f : world -> C) (m : M A) (k : A -> M B) :
  keeps f m -> (forall a, keeps f (k a)) -> keeps f (bind m k).
Proof.
  intros Hm Hk w. unfold bind.
  specialize (Hm w). destruct (m w) as [[a|e] w1]; simpl in *.
  - rewrite Hk. exact Hm.
  - exact Hm.
Qed.

Lemma bind_ok_inv {A B} (m : M A) (k : A -> M B) w b w' :
  bind m k w = (Ok b, w') ->
  exists a w1, m w = (Ok a, w1) /\ k a w1 = (Ok b, w').
Proof.
  unfold bind. destruct (m w) as [[a|e] w1]; intro H.
  - exists a, w1. split; [reflexivity | exact H].
  - discriminate H.
Qed.

Lemma bind_ok {A B} (m : M A) (k : A -> M B) w a w1 :
  m w = (Ok a, w1) -> bind m k w = k a w1.
Proof. intro H. unfold bind. rewrite H. reflexivity. Qed.

Lemma bind_raise {A B} (m : M A) (k : A -> M B) w e w1 :
  m w = (Raise e, w1) -> bind m k w = (Raise e, w1).
Proof. intro H. unfold bind. rewrite H. reflexivity. Qed.

Arguments bind_ok {A B} m k w a w1 _.
Arguments bind_raise {A B} m k w e w1 _.

Lemma lift_ok_inv {A} (r : result A) w a w' :
  lift r w = (Ok a, w') -> r = Ok a /\ w' = w.
Proof. unfold lift. intro H. inversion H. split; reflexivity. Qed.

Lemma n_traces_app l1 l2 : n_traces (l1 ++ l2) = (n_traces l1 + n_traces l2)%nat.
Proof. unfold n_traces. rewrite filter_app, length_app. reflexivity. Qed.

Lemma keeps_emit_self e : keeps self (emit e).
Proof. intro w; reflexivity. Qed.

Lemma keeps_emit_cells e : keeps cells (emit e).
Proof. intro w; reflexivity. Qed.

Lemma keeps_emit_traces e :
  is_trace e = false -> keeps (fun w => n_traces (log w)) (emit e).
Proof.
  intros He w. simpl. rewrite n_traces_app. unfold n_traces at 2. simpl.
  rewrite He. simpl. lia.
Qed.

Lemma keeps_set_global_gen {B} (f : world -> B) g :
  (forall s gg gs cs l g', f (mkWorld s gg gs cs l) = f (mkWorld s g' gs cs l)) ->
  keeps f (set_global_gen g).
Proof. intros Hf w. destruct w. simpl. apply Hf. Qed.

Lemma keeps_set_gens {B} (f : world -> B) gs' :
  (forall s gg gs cs l gs2, f (mkWorld s gg gs cs l) = f (mkWorld s gg gs2 cs l)) ->
  keeps f (set_gens gs').
Proof. intros Hf w. destruct w. simpl. apply Hf. Qed.

Lemma rng_blind_self : rng_blind self.
Proof. intros s gg gs cs l gg' gs'. reflexivity. Qed.

Lemma rng_blind_cells : rng_blind cells.
Proof. intros s gg gs cs l gg' gs'. reflexivity. Qed.

Lemma rng_blind_traces : rng_blind (fun w => n_traces (log w)).
Proof. intros s gg gs cs l gg' gs'. reflexivity. Qed.

Lemma quiet_self : quiet self.
Proof. split; [apply rng_blind_self | intros; apply keeps_emit_self]. Qed.

Lemma quiet_cells : quiet cells.
Proof. split; [apply rng_blind_cells | intros; apply keeps_emit_cells]. Qed.

Lemma quiet_traces : quiet (fun w => n_traces (log w)).
Proof. split; [apply rng_blind_traces | apply keeps_emit_traces]. Qed.

Ltac keeps_step :=
  match goal with
  | |- keeps _ (ret _) => apply keeps_ret
  | |- keeps _ (raise _) => apply keeps_raise
  | |- keeps _ (lift _) => apply keeps_lift
  | |- keeps _ (get _) => apply keeps_get
  | |- keeps _ (bind _ _) => apply keeps_bind; [ | intro ]
  | |- keeps _ (match ?x with _ => _ end) => destruct x
  end.

Section Frames.

Variable draw : rng_state -> Q * rng_state.
Context {B : Type} (f : world -> B) (Hq : quiet f).

Lemma keeps_rng_uniform rng N : keeps f (rng_uniform draw rng N).
Proof.
  destruct Hq as [Hb He]. unfold rng_uniform.
  repeat keeps_step; try (apply He; reflexivity).
  - apply keeps_set_global_gen. intros. apply Hb.
  - apply keeps_set_gens. intros. apply Hb.
Qed.

Lemma keeps_sample_loop ds N dom :
  forall rng acc, keeps f (sample_loop draw ds N dom rng acc).
Proof.
  induction ds as [|d ds IH]; intros rng acc; simpl.
  - apply keeps_ret.
  - repeat keeps_step; try apply keeps_rng_uniform. apply IH.
Qed.

Lemma keeps_calculate_sample_points N dom seed rng :
  keeps f (calculate_sample_points draw N dom seed rng).
Proof.
  unfold calculate_sample_points.
  repeat keeps_step; apply keeps_sample_loop.
Qed.

Lemma keeps_evaluate_integrand fn points :
  keeps f (evaluate_integrand fn points).
Proof.
  destruct Hq as [Hb He]. unfold evaluate_integrand.
  repeat keeps_step. apply He. reflexivity.
Qed.

Lemma keeps_compiled_steps N seed rng fn dom :
  keeps f (compiled_steps draw N seed rng fn dom).
Proof.
  unfold compiled_steps.
  repeat keeps_step;
    first [apply keeps_calculate_sample_points | apply keeps_evaluate_integrand].
Qed.

End Frames.

(** ** Validation *)

Lemma domain_len_rows d rows :
  domain_rows d = Some rows -> domain_len d = Ok (length rows).
Proof.
  destruct d as [rs|t]; simpl.
  - intro H. inversion H. reflexivity.
  - destruct (t_arr t); simpl; intro H; inversion H. reflexivity.
Qed.

Lemma check_domain_bounds_rows d rows :
  domain_rows d = Some rows -> check_domain_bounds d = check_bounds rows.
Proof.
  destruct d as [rs|t]; simpl.
  - intro H. inversion H. reflexivity.
  - destruct (t_arr t); simpl; intro H; inversion H. reflexivity.
Qed.

Lemma N_accepted_positive N : N_rejected N = false -> positive_integer N.
Proof.
  unfold N_rejected. destruct N as [z|q]; simpl.
  - rewrite orb_false_r. intro H. exists z. split; [reflexivity|].
    apply Z.ltb_ge in H. exact H.
  - rewrite orb_true_r. discriminate.
Qed.

Lemma positive_N_accepted z : (1 <= z)%Z -> N_rejected (PyInt z) = false.
Proof.
  intro H. unfold N_rejected. simpl. rewrite orb_false_r.
  apply Z.ltb_ge. exact H.
Qed.

Lemma check_bounds_bad rows :
  Exists bad_bounds rows -> check_bounds rows = Raise (ValueError E_BOUND).
Proof.
  induction rows as [|r rows IH]; intro H.
  - inversion H.
  - simpl. destruct (Nat.eqb (length r) 2) eqn:Hlen; simpl; [|reflexivity].
    destruct (Qle_bool (nth 0 r 0) (nth 1 r 0)) eqn:Hle; simpl; [|reflexivity].
    apply IH. inversion H as [? ? Hbad|? ? Htl]; subst; [|exact Htl].
    exfalso. apply Nat.eqb_eq in Hlen. apply Qle_bool_iff in Hle.
    destruct Hbad as [Hbad|(lo & hi & -> & Hlt)].
    + apply Hbad. exact Hlen.
    + simpl in Hle. exact (Qlt_not_le _ _ Hlt Hle).
Qed.

Lemma check_inputs_rejects dim N d :
  wellformed_domain d -> invalid_inputs dim N d ->
  exists code, _check_inputs (Some dim) (Some N) d = Raise (ValueError code).
Proof.
  intros Hwf Hinv. unfold _check_inputs.
  destruct (dim <? 1)%Z eqn:Hdim; [exists E_DIM; reflexivity|].
  apply Z.ltb_ge in Hdim.
  destruct d as [d|].
  - simpl in Hwf. destruct (domain_rows d) as [rows|] eqn:Hrows;
      [|congruence].
    rewrite (domain_len_rows _ Hrows). simpl.
    destruct (dim =? Z.of_nat (length rows))%Z eqn:Hlen; simpl;
      [|exists E_DIM_MATCH; reflexivity].
    apply Z.eqb_eq in Hlen.
    destruct (N_rejected N) eqn:HN; simpl; [exists E_N; reflexivity|].
    rewrite (check_domain_bounds_rows _ Hrows).
    destruct Hinv as [H|[H|(d' & rows' & Hd & Hr & H)]].
    + lia.
    + exfalso. apply H. apply N_accepted_positive. exact HN.
    + inversion Hd; subst d'. rewrite Hrows in Hr. inversion Hr; subst rows'.
      destruct H as [H|H]; [congruence|].
      exists E_BOUND. apply check_bounds_bad. exact H.
  - simpl.
    destruct (N_rejected N) eqn:HN; simpl; [exists E_N; reflexivity|].
    destruct Hinv as [H|[H|(d' & rows' & Hd & _)]].
    + lia.
    + exfalso. apply H. apply N_accepted_positive. exact HN.
    + discriminate Hd.
Qed.

(** ** The reduction step *)

Lemma column_fst pairs : column 0 (map pair_row pairs) = Ok (map fst pairs).
Proof.
  induction pairs as [|p pairs IH]; simpl; [reflexivity|].
  rewrite IH. reflexivity.
Qed.

Lemma column_snd pairs : column 1 (map pair_row pairs) = Ok (map snd pairs).
Proof.
  induction pairs as [|p pairs IH]; simpl; [reflexivity|].
  rewrite IH. reflexivity.
Qed.

Lemma vsub_pairs pairs :
  vsub (map snd pairs) (map fst pairs) = map (fun p => snd p - fst p) pairs.
Proof.
  induction pairs as [|p pairs IH]; simpl; [reflexivity|].
  rewrite IH. reflexivity.
Qed.

Lemma calculate_result_value bk (dd : any_dtype) bf (df : any_dtype) pairs fvs :
  is_floating df = true \/ bk <> numpy ->
  exists r,
    calculate_result (PyTensor (mkTensor bf df (A1 fvs)))
      (mkTensor bk dd (A2 (map pair_row pairs))) = Ok r /\
    t_arr r = A0 (reduction pairs fvs).
Proof.
  intro H. unfold calculate_result, reduction, volume. simpl.
  rewrite column_snd, column_fst. simpl. rewrite vsub_pairs.
  unfold quotient_kind, infer_backend. simpl.
  destruct bk, bf, dd as [[]| |], df as [[]| |]; simpl;
    try (eexists; split; reflexivity);
    destruct H as [H|H]; try discriminate H; congruence.
Qed.

Lemma calculate_result_vector b (dt : dtype) b' (dt' : dtype) pairs fvs :
  exists r,
    calculate_result (PyTensor (mkTensor b' dt' (A1 fvs)))
      (mkTensor b dt (A2 (map pair_row pairs))) = Ok r /\
    t_arr r = A0 (reduction pairs fvs).
Proof. apply calculate_result_value. left. reflexivity. Qed.

(** C1, as the code has it. For a domain of [dim] (lower, upper) pairs and
    a non-empty sequence of [N] function values which has a floating dtype,
    or any dtype when the domain is not on numpy, [calculate_result]
    returns volume * sum(function_values) / N, the volume being the product
    over the dimensions of (upper - lower); on numpy the result has the
    dtype of the function values. *)
Theorem calculate_result_formula b (dt : any_dtype) b' (dt' : any_dtype)
    (pairs : list (Q * Q)) (function_values : list Q) :
  function_values <> [] ->
  is_floating dt' = true \/ b <> numpy ->
  exists r,
    calculate_result (PyTensor (mkTensor b' dt' (A1 function_values)))
      (mkTensor b dt (A2 (map pair_row pairs))) = Ok r /\
    t_arr r =
      A0 (Qprod (map (fun p => snd p - fst p) pairs) * Qsum function_values
          / inject_Z (Z.of_nat (length function_values))) /\
    (b = numpy -> b' = numpy -> t_dtype r = dt').
Proof.
  intros _ H.
  destruct (@calculate_result_value b dt b' dt' pairs function_values H)
    as (r & Hr & Ha).
  exists r. split; [exact Hr|]. split; [exact Ha|].
  intros -> ->. revert Hr.
  unfold calculate_result. simpl. rewrite column_snd, column_fst. simpl.
  unfold quotient_kind, infer_backend. simpl.
  destruct H as [H|H]; [|congruence].
  destruct dt' as [[]| |]; try discriminate H; simpl;
    intro Hr; inversion Hr; reflexivity.
Qed.




(** ** Stacking columns into a table *)

Lemma rows_of_columns_length n : forall cols,
  length (rows_of_columns n cols) = n.
Proof.
  induction n as [|n IH]; intro cols; simpl; [reflexivity|].
  rewrite IH. reflexivity.
Qed.

Lemma rows_of_columns_width n : forall cols,
  Forall (fun row => length row = length cols) (rows_of_columns n cols).
Proof.
  induction n as [|n IH]; intro cols; simpl; constructor.
  - apply length_map.
  - specialize (IH (map (@tl Q) cols)). rewrite length_map in IH. exact IH.
Qed.

Lemma nth_tl (i : nat) (c : list Q) : nth i (tl c) 0 = nth (S i) c 0.
Proof. destruct c; [destruct i|]; reflexivity. Qed.

Lemma rows_of_columns_nth n : forall cols i,
  (i < n)%nat ->
  nth i (rows_of_columns n cols) [] = map (fun c => nth i c 0) cols.
Proof.
  induction n as [|n IH]; intros cols i Hi; [lia|].
  destruct i as [|i]; simpl.
  - apply map_ext. intros [|x c]; reflexivity.
  - rewrite IH by lia. rewrite map_map. apply map_ext.
    intro c. apply nth_tl.
Qed.

Lemma nth_map_in {A C} (h : A -> C) l d x y :
  (d < length l)%nat -> nth d (map h l) x = h (nth d l y).
Proof.
  revert d. induction l as [|a l IH]; intros d Hd; simpl in *; [lia|].
  destruct d as [|d]; [reflexivity|]. apply IH. lia.
Qed.

Lemma stack_axis1_ok n c cols :
  Forall (fun c' => length c' = n) (c :: cols) ->
  stack_axis1 (c :: cols) = Ok (rows_of_columns n (c :: cols)).
Proof.
  intro H. unfold stack_axis1.
  assert (Hc : length c = n) by (inversion H; assumption).
  replace (forallb (fun c' => Nat.eqb (length c') (length c)) (c :: cols))
    with true.
  - rewrite Hc. reflexivity.
  - symmetry. apply forallb_forall. intros c' Hin.
    rewrite Forall_forall in H. rewrite (H c' Hin), Hc. apply Nat.eqb_refl.
Qed.

Section Properties.

Variable draw : rng_state -> Q * rng_state.

(** C6. A call of [integrate] whose [dim] is below 1, whose domain has a
    length other than [dim], whose [N] is not a positive integer, or one of
    whose bound pairs has a length other than 2 or has lower > upper, raises
    a [ValueError] from [_check_inputs], the first statement of the method:
    the world after the call is the world before it, so nothing was sampled,
    the integrand was not called and no state changed. *)
Theorem integrate_validates_eagerly fn dim N d seed rng backend w :
  wellformed_domain d -> invalid_inputs dim N d ->
  exists code,
    integrate draw fn dim N d seed rng backend w = (Raise (ValueError code), w).
Proof.
  intros Hwf Hinv.
  destruct (check_inputs_rejects Hwf Hinv) as [code Hc].
  exists code. unfold integrate.
  apply bind_raise. unfold lift. rewrite Hc. reflexivity.
Qed.

Lemma keeps_self_do_compile N dom seed rng fn :
  keeps self (do_compile draw N dom seed rng fn).
Proof.
  unfold do_compile.
  repeat keeps_step;
    first [ apply keeps_emit_self
          | apply (keeps_calculate_sample_points draw quiet_self)
          | apply (keeps_evaluate_integrand quiet_self) ].
Qed.

Lemma keeps_self_set_cells cs : keeps self (set_cells cs).
Proof. intro w. reflexivity. Qed.

Lemma keeps_self_call c fn dom : keeps self (call draw c fn dom).
Proof.
  destruct c as [b N seed rng | k N dom0 seed rng]; simpl.
  - apply (keeps_compiled_steps draw quiet_self).
  - repeat keeps_step;
      first [ apply keeps_self_do_compile
            | apply keeps_self_set_cells
            | apply (keeps_compiled_steps draw quiet_self) ].
Qed.

(** C10. Calling what [jit_integrate] returned leaves the integrator
    instance as it was, on every backend and whatever the outcome: both
    [compiled_integrate] closures drop the count which the evaluation step
    returns, so [_nr_of_fevals] keeps its value. *)
Theorem compiled_call_keeps_nr_of_fevals c fn dom w :
  self (snd (call draw c fn dom w)) = self w /\
  _nr_of_fevals (self (snd (call draw c fn dom w))) = _nr_of_fevals (self w).
Proof.
  assert (H : self (snd (call draw c fn dom w)) = self w)
    by apply keeps_self_call.
  split; [exact H | rewrite H; reflexivity].
Qed.

Lemma setup_total dim d b :
  exists t, _setup_integration_domain dim d b = Ok t.
Proof.
  destruct d as [[rows|t]|]; simpl; eexists; reflexivity.
Qed.

(** C7, as the code has it. With both a seed and a generator,
    [calculate_sample_points] raises "seed and rng cannot both be passed"
    before it draws, and so does [integrate] once validation has passed.
    [jit_integrate] does not look at the two arguments: it returns its
    callable, and the conflict is raised each time that callable is invoked
    (with torch from the tracing of step 1, so that nothing is ever
    cached). *)
Theorem seed_and_rng_conflict :
  (forall N dom s r w,
      calculate_sample_points draw N dom (Some s) (Some r) w
      = (Raise (ValueError E_SEED_RNG), w)) /\
  (forall fn dim N d s r b w,
      _check_inputs (Some dim) (Some N) d = Ok tt ->
      integrate draw fn dim N d (Some s) (Some r) b w
      = (Raise (ValueError E_SEED_RNG), w)) /\
  (forall dim N d s r b w c w1,
      jit_integrate dim N d (Some s) (Some r) b w = (Ok c, w1) ->
      not_compiled c w1 /\
      forall fn dom w2,
        not_compiled c w2 ->
        fst (call draw c fn dom w2) = Raise (ValueError E_SEED_RNG) /\
        not_compiled c (snd (call draw c fn dom w2))).
Proof.
  split; [|split].
  - reflexivity.
  - intros fn dim N d s r b w Hc. unfold integrate.
    destruct (setup_total dim d b) as [t Ht].
    unfold bind at 1. unfold lift at 1. rewrite Hc.
    unfold bind at 1. unfold lift at 1. rewrite Ht.
    reflexivity.
  - intros dim N d s r b w c w1 Hj. unfold jit_integrate in Hj.
    apply bind_ok_inv in Hj. destruct Hj as (u & wa & _ & Hj).
    apply bind_ok_inv in Hj. destruct Hj as (t & wb & _ & Hj).
    destruct (infer_backend t).
    + (* torch *)
      unfold bind, get, set_cells, ret in Hj. simpl in Hj.
      inversion Hj; subst c w1; clear Hj. simpl.
      split.
      * rewrite nth_error_app2 by lia. rewrite Nat.sub_diag. reflexivity.
      * intros fn dom w2 Hk. unfold bind, get. simpl. rewrite Hk.
        simpl. split; [reflexivity | exact Hk].
    + discriminate Hj.
    + (* tensorflow *)
      apply bind_ok_inv in Hj. destruct Hj as (s0 & wc & _ & Hj).
      apply bind_ok_inv in Hj. destruct Hj as (u0 & wd & _ & Hj).
      apply bind_ok_inv in Hj. destruct Hj as (s1 & we & _ & Hj).
      destruct (_tf_jit_calculate_result s1); [|discriminate Hj].
      inversion Hj; subst c w1; clear Hj. simpl.
      split; [exact I|]. intros fn dom w2 _. split; [reflexivity | exact I].
    + (* jax *)
      apply bind_ok_inv in Hj. destruct Hj as (s0 & wc & _ & Hj).
      apply bind_ok_inv in Hj. destruct Hj as (u0 & wd & _ & Hj).
      apply bind_ok_inv in Hj. destruct Hj as (s1 & we & _ & Hj).
      destruct (_jax_jit_calculate_result s1); [|discriminate Hj].
      inversion Hj; subst c w1; clear Hj. simpl.
      split; [exact I|]. intros fn dom w2 _. split; [reflexivity | exact I].
Qed.

(** *** The sample generator *)

Lemma uniform_length n : forall g, length (fst (uniform draw g n)) = n.
Proof.
  induction n as [|n IH]; intro g; simpl; [reflexivity|].
  destruct (draw g) as [u g1]. specialize (IH g1).
  destruct (uniform draw g1 n) as [us g2]. simpl in *. rewrite IH. reflexivity.
Qed.

Lemma columns_length n : forall pairs g,
  length (columns draw g pairs n) = length pairs.
Proof.
  induction pairs as [|p pairs IH]; intro g; simpl; [reflexivity|].
  destruct (uniform draw g n) as [us g']. simpl. rewrite IH. reflexivity.
Qed.

Lemma columns_height n : forall pairs g,
  Forall (fun c => length c = n) (columns draw g pairs n).
Proof.
  induction pairs as [|p pairs IH]; intro g; simpl; [constructor|].
  pose proof (uniform_length n g) as Hl.
  destruct (uniform draw g n) as [us g']. simpl in Hl. constructor.
  - rewrite length_map. exact Hl.
  - apply IH.
Qed.

Lemma batches_height n : forall dim g d,
  (d < dim)%nat -> length (nth d (batches draw g dim n) []) = n.
Proof.
  induction dim as [|dim IH]; intros g d Hd; [lia|]. simpl.
  pose proof (uniform_length n g) as Hl.
  destruct (uniform draw g n) as [us g']. simpl in Hl.
  destruct d as [|d]; simpl; [exact Hl|]. apply IH. lia.
Qed.

Lemma columns_nth n : forall pairs g d lo hi,
  nth_error pairs d = Some (lo, hi) ->
  nth d (columns draw g pairs n) []
  = map (fun u => u * (hi - lo) + lo)
      (nth d (batches draw g (length pairs) n) []).
Proof.
  induction pairs as [|p pairs IH]; intros g d lo hi Hd.
  - destruct d; discriminate Hd.
  - simpl. destruct (uniform draw g n) as [us g'].
    destruct d as [|d]; simpl in *.
    + inversion Hd; subst p. reflexivity.
    + apply IH. exact Hd.
Qed.

Lemma nth_error_update {A} (l : list A) : forall r x y,
  nth_error l r = Some y -> nth_error (update r x l) r = Some x.
Proof.
  induction l as [|a l IH]; intros r x y H.
  - destruct r; discriminate H.
  - destruct r as [|r]; simpl in *; [reflexivity|]. apply (IH _ _ _ H).
Qed.

Lemma rng_uniform_ok rng N w g :
  (0 <= N)%Z -> rng_state_of rng w = Some g ->
  exists rng' w',
    rng_uniform draw rng (PyInt N) w
    = (Ok (fst (uniform draw g (Z.to_nat N)), rng'), w') /\
    rng_state_of rng' w' = Some (snd (uniform draw g (Z.to_nat N))) /\
    log w' = log w ++ [EvUniform (Z.to_nat N)].
Proof.
  intros HN Hg. unfold rng_uniform, size_of.
  replace (N <? 0)%Z with false by (symmetry; apply Z.ltb_ge; exact HN).
  destruct rng as [g0| |r]; simpl in Hg.
  - inversion Hg; subst g0. unfold bind, lift, emit. simpl.
    destruct (uniform draw g (Z.to_nat N)) as [us g'].
    eexists _, _. repeat split.
  - inversion Hg; subst g. unfold bind, lift, emit, get. simpl.
    destruct (uniform draw (global_gen w) (Z.to_nat N)) as [us g'].
    eexists _, _. repeat split.
  - unfold bind, lift, emit, get. simpl. rewrite Hg.
    destruct (uniform draw g (Z.to_nat N)) as [us g'].
    eexists _, _. split; [reflexivity|]. simpl. split; [|reflexivity].
    apply (nth_error_update _ _ _ Hg).
Qed.

Lemma index_pair pre p suf k b dt :
  (k < 2)%nat ->
  arr_index2 (length pre) k
    (t_arr (mkTensor b dt (A2 (map pair_row (pre ++ p :: suf)))))
  = Ok (nth k (pair_row p) 0).
Proof.
  intro Hk. simpl. rewrite nth_error_map, nth_error_app2 by lia.
  rewrite Nat.sub_diag. simpl.
  destruct k as [|[|k]]; [reflexivity | reflexivity | lia].
Qed.

Lemma sample_loop_ok N b dt : forall suf pre rng acc w g,
  (0 <= N)%Z -> rng_state_of rng w = Some g ->
  exists w',
    sample_loop draw (seq (length pre) (length suf)) (PyInt N)
      (mkTensor b dt (A2 (map pair_row (pre ++ suf)))) rng acc w
    = (Ok (acc ++ columns draw g suf (Z.to_nat N)), w') /\
    log w' = log w ++ repeat (EvUniform (Z.to_nat N)) (length suf).
Proof.
  induction suf as [|p suf IH]; intros pre rng acc w g HN Hg.
  - simpl. exists w. rewrite !app_nil_r. split; reflexivity.
  - cbn [length seq sample_loop columns].
    rewrite (bind_ok _ _ w (snd p) w)
      by (unfold lift; rewrite index_pair by lia; reflexivity).
    rewrite (bind_ok _ _ w (fst p) w)
      by (unfold lift; rewrite index_pair by lia; reflexivity).
    rewrite (bind_ok _ _ w (fst p) w)
      by (unfold lift; rewrite index_pair by lia; reflexivity).
    destruct (rng_uniform_ok rng w HN Hg) as (rng' & w1 & Hu & Hg' & Hl).
    rewrite (bind_ok _ _ _ _ _ Hu).
    destruct (uniform draw g (Z.to_nat N)) as [us g']. simpl in Hg'. simpl fst.
    specialize (IH (pre ++ [p]) rng'
                  (acc ++ [map (fun u => u * (snd p - fst p) + fst p) us])
                  w1 g' HN Hg').
    rewrite length_app in IH. simpl in IH.
    rewrite Nat.add_1_r, <- !app_assoc in IH. simpl in IH.
    destruct IH as (w' & Hs & Hl'). exists w'. split; [exact Hs|].
    rewrite Hl', Hl, <- app_assoc. reflexivity.
Qed.

Lemma calculate_sample_points_ok N pairs b dt seed rng w g :
  (0 <= N)%Z -> pairs <> [] -> generator seed rng w = Some g ->
  exists w',
    calculate_sample_points draw (PyInt N)
      (mkTensor b dt (A2 (map pair_row pairs))) seed rng w
    = (Ok (mkTensor b dt
             (A2 (rows_of_columns (Z.to_nat N)
                    (columns draw g pairs (Z.to_nat N))))), w') /\
    log w' = log w ++ repeat (EvUniform (Z.to_nat N)) (length pairs).
Proof.
  intros HN Hne Hg. unfold calculate_sample_points.
  assert (Hr : exists r0,
             (match rng with
              | None => ret (RNG_new seed)
              | Some r =>
                  match seed with
                  | Some _ => raise (ValueError E_SEED_RNG)
                  | None => ret (CallerRNG r)
                  end
              end) w = (Ok r0, w) /\ rng_state_of r0 w = Some g).
  { destruct rng as [r|], seed as [s|]; simpl in Hg; try discriminate Hg;
      eexists; (split; [reflexivity | exact Hg]). }
  destruct Hr as (r0 & Hr & Hg0).
  rewrite (bind_ok _ _ _ _ _ Hr).
  rewrite (bind_ok _ _ w (length pairs) w)
    by (unfold lift; simpl; rewrite length_map; reflexivity).
  destruct (sample_loop_ok b dt pairs [] r0 [] w HN Hg0) as (w' & Hs & Hl).
  simpl in Hs. rewrite (bind_ok _ _ _ _ _ Hs).
  pose proof (columns_height (Z.to_nat N) pairs g) as Hh.
  pose proof (columns_length (Z.to_nat N) pairs g) as Hlen.
  destruct (columns draw g pairs (Z.to_nat N)) as [|c cols] eqn:Hc.
  - destruct pairs; [congruence | discriminate Hlen].
  - rewrite (bind_ok _ _ w' (rows_of_columns (Z.to_nat N) (c :: cols)) w')
      by (unfold lift; rewrite (stack_axis1_ok Hh); reflexivity).
    exists w'. split; [reflexivity | exact Hl].
Qed.

(** C4. For a positive [N] and a canonical domain of [dim] >= 1 pairs,
    [calculate_sample_points] draws once per dimension, in the order
    0..dim-1: the table it returns has [N] rows of [dim] entries, in the
    backend (and dtype) of the domain, and entry [i] of column [d] is value
    [i] of the [d]-th batch of [N] values of the generator, multiplied by
    (upper_d - lower_d) and shifted by lower_d. *)
Theorem calculate_sample_points_table N pairs b (dt : dtype) seed rng w g :
  (1 <= N)%Z -> pairs <> [] -> generator seed rng w = Some g ->
  exists rows w',
    calculate_sample_points draw (PyInt N)
      (mkTensor b dt (A2 (map pair_row pairs))) seed rng w
    = (Ok (mkTensor b dt (A2 rows)), w') /\
    length rows = Z.to_nat N /\
    Forall (fun row => length row = length pairs) rows /\
    (forall i d lo hi,
        (i < Z.to_nat N)%nat -> nth_error pairs d = Some (lo, hi) ->
        nth d (nth i rows []) 0
        = nth i (nth d (batches draw g (length pairs) (Z.to_nat N)) []) 0
          * (hi - lo) + lo) /\
    log w' = log w ++ repeat (EvUniform (Z.to_nat N)) (length pairs).
Proof.
  intros HN Hne Hg.
  destruct (@calculate_sample_points_ok N pairs b dt seed rng w g)
    as (w' & Hc & Hl); [lia | exact Hne | exact Hg |].
  eexists _, w'. split; [exact Hc|].
  split; [apply rows_of_columns_length|].
  split.
  { pose proof (rows_of_columns_width (Z.to_nat N)
                  (columns draw g pairs (Z.to_nat N))) as Hw.
    rewrite columns_length in Hw. exact Hw. }
  split; [|exact Hl].
  intros i d lo hi Hi Hd.
  assert (Hdlt : (d < length pairs)%nat)
    by (apply nth_error_Some; congruence).
  rewrite rows_of_columns_nth by exact Hi.
  rewrite (nth_map_in (fun c => nth i c 0) _ 0 [])
    by (rewrite columns_length; exact Hdlt).
  erewrite columns_nth by exact Hd.
  apply (nth_map_in (fun u => u * (hi - lo) + lo)).
  rewrite batches_height by exact Hdlt. exact Hi.
Qed.

(** *** The evaluation counter *)

Lemma rng_uniform_inv rng N w us rng' w' :
  rng_uniform draw rng N w = (Ok (us, rng'), w') ->
  exists n, size_of N = Ok n /\ length us = n.
Proof.
  unfold rng_uniform. intro H.
  apply bind_ok_inv in H. destruct H as (n & w1 & Hn & H).
  apply lift_ok_inv in Hn. destruct Hn as [Hn _].
  apply bind_ok_inv in H. destruct H as (u & w2 & _ & H).
  exists n. split; [exact Hn|].
  pose proof (uniform_length n) as Hl.
  destruct rng as [g| |r].
  - specialize (Hl g). destruct (uniform draw g n) as [us' g'].
    simpl in Hl. inversion H as [[Hus Hrng Hw]]. rewrite <- Hus. exact Hl.
  - apply bind_ok_inv in H. destruct H as (g & w3 & _ & H).
    specialize (Hl g). destruct (uniform draw g n) as [us' g'].
    apply bind_ok_inv in H. destruct H as (u' & w4 & _ & H).
    simpl in Hl. inversion H as [[Hus Hrng Hw]]. rewrite <- Hus. exact Hl.
  - apply bind_ok_inv in H. destruct H as (gs & w3 & _ & H).
    destruct (nth_error gs r) as [g|]; [|discriminate H].
    specialize (Hl g). destruct (uniform draw g n) as [us' g'].
    apply bind_ok_inv in H. destruct H as (u' & w4 & _ & H).
    simpl in Hl. inversion H as [[Hus Hrng Hw]]. rewrite <- Hus. exact Hl.
Qed.

Lemma sample_loop_inv N dom : forall ds rng acc w cols w',
  sample_loop draw ds N dom rng acc w = (Ok cols, w') ->
  exists new,
    cols = acc ++ new /\ length new = length ds /\
    Forall (fun c => size_of N = Ok (length c)) new.
Proof.
  induction ds as [|d ds IH]; intros rng acc w cols w' H; simpl in H.
  - inversion H; subst. exists []. rewrite app_nil_r.
    split; [reflexivity|]. split; [reflexivity | constructor].
  - apply bind_ok_inv in H. destruct H as (hi & w1 & _ & H).
    apply bind_ok_inv in H. destruct H as (lo & w2 & _ & H).
    apply bind_ok_inv in H. destruct H as (off & w3 & _ & H).
    apply bind_ok_inv in H. destruct H as ([us rng'] & w4 & Hu & H).
    apply rng_uniform_inv in Hu. destruct Hu as (n & Hn & Hl).
    apply IH in H. destruct H as (new & Hc & Hlen & Hall).
    exists (map (fun u => u * (hi - lo) + off) us :: new).
    split; [rewrite Hc, <- app_assoc; reflexivity|].
    split; [simpl; rewrite Hlen; reflexivity|].
    constructor; [|exact Hall]. rewrite length_map, Hl. exact Hn.
Qed.

Lemma stack_axis1_inv cols rows :
  stack_axis1 cols = Ok rows ->
  exists c cols', cols = c :: cols' /\ length rows = length c.
Proof.
  unfold stack_axis1. destruct cols as [|c cols']; [discriminate|].
  destruct (forallb _ _); [|discriminate].
  intro H. inversion H. exists c, cols'. split; [reflexivity|].
  apply rows_of_columns_length.
Qed.

Lemma calculate_sample_points_inv N dom seed rng w t w' :
  calculate_sample_points draw N dom seed rng w = (Ok t, w') ->
  exists rows n,
    t_arr t = A2 rows /\ size_of N = Ok n /\ length rows = n.
Proof.
  unfold calculate_sample_points. intro H.
  apply bind_ok_inv in H. destruct H as (r0 & w1 & _ & H).
  apply bind_ok_inv in H. destruct H as (dim & w2 & _ & H).
  apply bind_ok_inv in H. destruct H as (cols & w3 & Hs & H).
  apply bind_ok_inv in H. destruct H as (rows & w4 & Hst & H).
  apply lift_ok_inv in Hst. destruct Hst as [Hst _].
  inversion H; subst. clear H. simpl.
  apply sample_loop_inv in Hs. destruct Hs as (new & Hc & _ & Hall).
  apply stack_axis1_inv in Hst. destruct Hst as (c & cols' & Hcols & Hlen).
  simpl in Hc. subst cols. subst new. inversion Hall; subst.
  exists rows, (length c). repeat split; assumption.
Qed.

Lemma evaluate_integrand_inv (fn : integrand) points w v n w' :
  evaluate_integrand fn points w = (Ok (v, n), w') ->
  exists k,
    shape0 (t_arr points) = Ok k /\
    n = (_nr_of_fevals (self w) + Z.of_nat k)%Z /\ self w' = self w.
Proof.
  unfold evaluate_integrand, bind, emit, lift, get, ret. simpl.
  destruct (fn points) as [v'|e]; [|discriminate].
  destruct (shape0 (t_arr points)) as [k|e]; [|discriminate].
  intro H. inversion H; subst. exists k. repeat split.
Qed.

Lemma check_inputs_N dim N d :
  _check_inputs (Some dim) (Some N) d = Ok tt -> N_rejected N = false.
Proof.
  unfold _check_inputs.
  destruct (dim <? 1)%Z; [discriminate|].
  destruct d as [d|].
  - destruct (domain_len d) as [n|e]; simpl; [|discriminate].
    destruct (negb (dim =? Z.of_nat n)%Z); simpl; [discriminate|].
    destruct (N_rejected N); simpl; [discriminate | reflexivity].
  - simpl. destruct (N_rejected N); simpl; [discriminate | reflexivity].
Qed.

Lemma integrate_counter_ok fn dim N d seed rng backend w r w' :
  integrate draw fn dim N d seed rng backend w = (Ok r, w') ->
  exists z,
    N = PyInt z /\ (1 <= z)%Z /\
    _nr_of_fevals (self w') = (_nr_of_fevals (self w) + z)%Z.
Proof.
  unfold integrate. intro H.
  apply bind_ok_inv in H. destruct H as ([] & w1 & Hc & H).
  apply lift_ok_inv in Hc. destruct Hc as [Hc ->].
  apply bind_ok_inv in H. destruct H as (t & w2 & Ht & H).
  apply lift_ok_inv in Ht. destruct Ht as [_ ->].
  apply bind_ok_inv in H. destruct H as (sp & w3 & Hsp & H).
  apply bind_ok_inv in H. destruct H as ([fv n] & w4 & Hev & H).
  apply bind_ok_inv in H. destruct H as (s & w5 & Hs & H).
  apply bind_ok_inv in H. destruct H as (u & w6 & Hset & H).
  apply lift_ok_inv in H. destruct H as [_ ->].
  inversion Hs; subst s w5. inversion Hset; subst w6. simpl.
  apply check_inputs_N, N_accepted_positive in Hc.
  destruct Hc as (z & -> & Hz). exists z. split; [reflexivity|].
  split; [exact Hz|].
  pose proof (keeps_calculate_sample_points draw quiet_self
                (PyInt z) t seed rng w) as Hk.
  rewrite Hsp in Hk. simpl in Hk.
  apply calculate_sample_points_inv in Hsp.
  destruct Hsp as (rows & k & Harr & Hsize & Hlen).
  apply evaluate_integrand_inv in Hev.
  destruct Hev as (k' & Hk' & -> & _).
  rewrite Harr in Hk'. simpl in Hk'. inversion Hk'; subst k'.
  simpl in Hsize. destruct (z <? 0)%Z; [discriminate|].
  inversion Hsize as [Hz2]. rewrite Hk, Hlen, <- Hz2. lia.
Qed.

Lemma integrate_counter_monotone fn dim N d seed rng backend w :
  (_nr_of_fevals (self w)
   <= _nr_of_fevals (self (snd (integrate draw fn dim N d seed rng backend w))))%Z.
Proof.
  unfold integrate.
  unfold bind at 1. unfold lift at 1.
  destruct (_check_inputs (Some dim) (Some N) d) as [[]|e]; simpl; [|lia].
  unfold bind at 1. unfold lift at 1.
  destruct (_setup_integration_domain dim d backend) as [t|e]; simpl; [|lia].
  unfold bind at 1.
  pose proof (keeps_calculate_sample_points draw quiet_self N t seed rng w)
    as Hk.
  destruct (calculate_sample_points draw N t seed rng w) as [[sp|e] w3];
    simpl in Hk; [|simpl; rewrite Hk; lia].
  unfold bind at 1.
  pose proof (keeps_evaluate_integrand quiet_self fn sp w3) as Hk'.
  destruct (evaluate_integrand fn sp w3) as [[[fv n]|e] w4] eqn:Hev;
    simpl in Hk'; [|simpl; rewrite Hk', Hk; lia].
  apply evaluate_integrand_inv in Hev. destruct Hev as (k & _ & -> & _).
  unfold bind, get, set_self, lift. simpl. rewrite Hk. lia.
Qed.

(** C5. The counter of a freshly constructed integrator is 0; a call of
    [integrate] which returns leaves it at its old value plus [N] (so at
    [N] after a single call on a fresh integrator); a call of [_eval] adds
    the number of points; and no call of [integrate], whatever its outcome,
    lowers it. *)
Theorem evaluation_counter :
  _nr_of_fevals BaseIntegrator_init = 0%Z /\
  (forall fn dim N d seed rng backend w r w',
      integrate draw fn dim N d seed rng backend w = (Ok r, w') ->
      exists z,
        N = PyInt z /\ (1 <= z)%Z /\
        _nr_of_fevals (self w') = (_nr_of_fevals (self w) + z)%Z /\
        (self w = BaseIntegrator_init -> _nr_of_fevals (self w') = z)) /\
  (forall fn dim N d seed rng backend w,
      (_nr_of_fevals (self w)
       <= _nr_of_fevals
            (self (snd (integrate draw fn dim N d seed rng backend w))))%Z) /\
  (forall points n w,
      len_arr (t_arr points) = Ok n ->
      _nr_of_fevals (self (snd (_eval points w)))
      = (_nr_of_fevals (self w) + Z.of_nat n)%Z).
Proof.
  split; [reflexivity|]. split; [|split].
  - intros fn dim N d seed rng backend w r w' H.
    destruct (integrate_counter_ok _ _ _ _ _ _ _ _ H) as (z & HN & Hz & Hc).
    exists z. repeat split; try assumption.
    intro Hf. rewrite Hc, Hf. reflexivity.
  - intros. apply integrate_counter_monotone.
  - intros points n w Hn. unfold _eval, bind, lift, get, set_self.
    rewrite Hn. simpl. destruct (_fn (self w)); reflexivity.
Qed.

(** *** Seeded runs *)

Lemma bind_ret {A C} (a : A) (k : A -> M C) w : bind (ret a) k w = k a w.
Proof. reflexivity. Qed.

Lemma bind_lift {A C} (r : result A) (k : A -> M C) w :
  bind (lift r) k w
  = match r with
    | Ok a => k a w
    | Raise e => (Raise e, w)
    end.
Proof. unfold bind, lift. destruct r; reflexivity. Qed.

Lemma outcome_bind {A C} (m : M A) (k : A -> M C) w1 w2 :
  fst (m w1) = fst (m w2) ->
  (forall a wa wb, fst (k a wa) = fst (k a wb)) ->
  fst (bind m k w1) = fst (bind m k w2).
Proof.
  intros Hm Hk. unfold bind.
  destruct (m w1) as [[a1|e1] wa], (m w2) as [[a2|e2] wb]; simpl in *;
    inversion Hm; subst; [apply Hk | reflexivity].
Qed.

Lemma rng_uniform_seeded g N w :
  rng_uniform draw (SeededRNG g) N w
  = match size_of N with
    | Ok n =>
        (Ok (fst (uniform draw g n), SeededRNG (snd (uniform draw g n))),
         snd (emit (EvUniform n) w))
    | Raise e => (Raise e, w)
    end.
Proof.
  unfold rng_uniform. rewrite bind_lift.
  destruct (size_of N) as [n|e]; [|reflexivity].
  unfold bind, emit, ret. destruct (uniform draw g n); reflexivity.
Qed.

Lemma sample_loop_seeded N dom : forall ds g acc w1 w2,
  fst (sample_loop draw ds N dom (SeededRNG g) acc w1)
  = fst (sample_loop draw ds N dom (SeededRNG g) acc w2).
Proof.
  induction ds as [|d ds IH]; intros g acc w1 w2; simpl; [reflexivity|].
  rewrite !bind_lift.
  destruct (arr_index2 d 1 (t_arr dom)) as [hi|e]; [|reflexivity].
  rewrite !bind_lift.
  destruct (arr_index2 d 0 (t_arr dom)) as [lo|e]; [|reflexivity].
  rewrite !bind_lift.
  unfold bind. rewrite !rng_uniform_seeded.
  destruct (size_of N) as [n|e]; [|reflexivity].
  apply IH.
Qed.

Lemma calculate_sample_points_seeded N dom s rng w1 w2 :
  fst (calculate_sample_points draw N dom (Some s) rng w1)
  = fst (calculate_sample_points draw N dom (Some s) rng w2).
Proof.
  unfold calculate_sample_points. destruct rng as [r|]; [reflexivity|].
  simpl RNG_new. rewrite !bind_ret, !bind_lift.
  destruct (shape0 (t_arr dom)) as [dim|e]; [|reflexivity].
  apply outcome_bind; [apply sample_loop_seeded|].
  intros cols wa wb. rewrite !bind_lift.
  destruct (stack_axis1 cols); reflexivity.
Qed.

(** C3. With a seed, the outcome of [integrate] is a function of its
    arguments alone: two calls with the same [fn], [dim], [N], domain and
    seed return the same result (or raise the same exception) from any two
    worlds, whatever the counter, the caches, the unseeded generator and the
    caller's generators hold in each. *)
Theorem integrate_deterministic fn dim N d s rng backend w1 w2 :
  fst (integrate draw fn dim N d (Some s) rng backend w1)
  = fst (integrate draw fn dim N d (Some s) rng backend w2).
Proof.
  unfold integrate. rewrite !bind_lift.
  destruct (_check_inputs (Some dim) (Some N) d) as [[]|e]; [|reflexivity].
  rewrite ?bind_lift.
  destruct (_setup_integration_domain dim d backend) as [t|e]; [|reflexivity].
  apply outcome_bind; [apply calculate_sample_points_seeded|].
  intros sp wa wb.
  unfold evaluate_integrand, bind, emit, lift, get, set_self, ret. simpl.
  destruct (fn sp) as [v|e]; [|reflexivity].
  destruct (shape0 (t_arr sp)); reflexivity.
Qed.

(** *** Constant integrands *)

Lemma check_bounds_pairs pairs :
  Forall (fun p => fst p <= snd p) pairs ->
  check_bounds (map pair_row pairs) = Ok tt.
Proof.
  induction 1 as [|p pairs Hp _ IH]; simpl; [reflexivity|].
  apply Qle_bool_iff in Hp. rewrite Hp. simpl. exact IH.
Qed.

Lemma check_inputs_pairs N pairs :
  (1 <= N)%Z -> pairs <> [] -> Forall (fun p => fst p <= snd p) pairs ->
  _check_inputs (Some (Z.of_nat (length pairs))) (Some (PyInt N))
    (Some (PyList (map pair_row pairs))) = Ok tt.
Proof.
  intros HN Hne Hb. unfold _check_inputs.
  replace (Z.of_nat (length pairs) <? 1)%Z with false
    by (symmetry; apply Z.ltb_ge; destruct pairs; [congruence | simpl; lia]).
  simpl. rewrite length_map, Z.eqb_refl. simpl.
  rewrite (positive_N_accepted HN). simpl.
  apply check_bounds_pairs. exact Hb.
Qed.




(** *** Lazy compilation with torch *)

Lemma keeps_ok {A C} (f : world -> C) (m : M A) w r w' :
  keeps f m -> m w = (r, w') -> f w' = f w.
Proof. intros Hk Hm. specialize (Hk w). rewrite Hm in Hk. exact Hk. Qed.

Arguments keeps_ok {A C f m w r w'} _ _.

Lemma nth_error_update_other {A} (l : list A) : forall k k' x,
  k <> k' -> nth_error (update k' x l) k = nth_error l k.
Proof.
  induction l as [|a l IH]; intros k k' x Hk.
  - destruct k'; reflexivity.
  - destruct k as [|k], k' as [|k']; simpl; try reflexivity; try congruence.
    apply IH. congruence.
Qed.

Lemma keeps_cells_do_compile N dom seed rng fn :
  keeps cells (do_compile draw N dom seed rng fn).
Proof.
  unfold do_compile.
  repeat keeps_step;
    first [ apply keeps_emit_cells
          | apply (keeps_calculate_sample_points draw quiet_cells)
          | apply (keeps_evaluate_integrand quiet_cells) ].
Qed.

Lemma emit_traces e w :
  n_traces (log (snd (emit e w)))
  = (n_traces (log w) + (if is_trace e then 1 else 0))%nat.
Proof.
  simpl. rewrite n_traces_app. unfold n_traces at 2. simpl.
  destruct (is_trace e); reflexivity.
Qed.

Lemma do_compile_inv N dom seed rng fn w a w' :
  do_compile draw N dom seed rng fn w = (Ok a, w') ->
  a = mkArtifact N seed rng /\
  n_traces (log w') = (n_traces (log w) + 2)%nat.
Proof.
  unfold do_compile. intro H.
  apply bind_ok_inv in H. destruct H as (u1 & w1 & H1 & H).
  apply bind_ok_inv in H. destruct H as (t1 & w2 & H2 & H).
  apply bind_ok_inv in H. destruct H as (sp & w3 & H3 & H).
  apply bind_ok_inv in H. destruct H as ([fv n] & w4 & H4 & H).
  apply bind_ok_inv in H. destruct H as (u2 & w5 & H5 & H).
  apply bind_ok_inv in H. destruct H as (r & w6 & H6 & H).
  apply lift_ok_inv in H6. destruct H6 as [_ ->].
  inversion H; subst a w'. split; [reflexivity|].
  pose proof (emit_traces (EvTrace 1) w) as E1. rewrite H1 in E1.
  pose proof (keeps_ok (keeps_calculate_sample_points draw quiet_traces
                          N dom seed rng) H2) as E2.
  pose proof (keeps_ok (keeps_calculate_sample_points draw quiet_traces
                          N dom seed rng) H3) as E3.
  pose proof (keeps_ok (keeps_evaluate_integrand quiet_traces fn sp) H4) as E4.
  pose proof (emit_traces (EvTrace 3) w4) as E5. rewrite H5 in E5.
  simpl in *. lia.
Qed.

(** C8, as the code has it. A request to [jit_integrate] traces nothing;
    with torch it allocates a fresh empty cell [compiled_func] for the
    callable it returns. The first invocation of that callable which
    returns has traced steps 1 and 3 and left the artifact in the cell; a
    filled cell is never written again by an invocation of any callable,
    and the callable then runs the cached artifact without tracing. The
    cell belongs to the callable, not to the integrator instance. *)
Theorem lazy_compilation_per_callable :
  (forall dim N d seed rng backend w c w1,
      jit_integrate dim N d seed rng backend w = (Ok c, w1) ->
      log w1 = log w /\ not_compiled c w1 /\
      forall k N' dom0 seed' rng',
        c = lazy_compiled_integrate k N' dom0 seed' rng' ->
        k = length (cells w) /\ cells w1 = cells w ++ [None]) /\
  (forall k N dom0 seed rng fn dom w r w',
      nth_error (cells w) k = Some None ->
      call draw (lazy_compiled_integrate k N dom0 seed rng) fn dom w
      = (Ok r, w') ->
      nth_error (cells w') k = Some (Some (mkArtifact N seed rng)) /\
      n_traces (log w') = (n_traces (log w) + 2)%nat) /\
  (forall k a c fn dom w,
      nth_error (cells w) k = Some (Some a) ->
      nth_error (cells (snd (call draw c fn dom w))) k = Some (Some a)) /\
  (forall k a N dom0 seed rng fn dom w,
      nth_error (cells w) k = Some (Some a) ->
      call draw (lazy_compiled_integrate k N dom0 seed rng) fn dom w
      = compiled_steps draw (step1_N a) (step1_seed a) (step1_rng a) fn dom w /\
      n_traces (log (snd (call draw (lazy_compiled_integrate k N dom0 seed rng)
                            fn dom w)))
      = n_traces (log w)).
Proof.
  split; [|split; [|split]].
  - intros dim N d seed rng backend w c w1 Hj. unfold jit_integrate in Hj.
    apply bind_ok_inv in Hj. destruct Hj as (u & wa & Ha & Hj).
    apply lift_ok_inv in Ha. destruct Ha as [_ ->].
    apply bind_ok_inv in Hj. destruct Hj as (t & wb & Hb & Hj).
    apply lift_ok_inv in Hb. destruct Hb as [_ ->].
    destruct (infer_backend t).
    + unfold bind, get, set_cells, ret in Hj. simpl in Hj.
      inversion Hj; subst c w1; clear Hj. simpl.
      split; [reflexivity|]. split.
      * rewrite nth_error_app2 by lia. rewrite Nat.sub_diag. reflexivity.
      * intros k N' dom0 seed' rng' Hc. inversion Hc. split; reflexivity.
    + discriminate Hj.
    + unfold bind, get, set_self, ret, raise in Hj. simpl in Hj.
      destruct (_tf_jit_calculate_sample_points (self w)); simpl in Hj;
        [destruct (_tf_jit_calculate_result (self w)); [|discriminate Hj]|];
        inversion Hj; subst c w1; simpl;
        (split; [reflexivity|]; split; [exact I|]; intros; discriminate).
    + unfold bind, get, set_self, ret, raise in Hj. simpl in Hj.
      destruct (_jax_jit_calculate_sample_points (self w)); simpl in Hj;
        [|discriminate Hj].
      destruct (_jax_jit_calculate_result (self w)); [|discriminate Hj].
      inversion Hj; subst c w1; simpl.
      split; [reflexivity|]. split; [exact I|]. intros; discriminate.
  - intros k N dom0 seed rng fn dom w r w' Hk Hc. simpl in Hc.
    apply bind_ok_inv in Hc. destruct Hc as (cs & w0 & Hg & Hc).
    inversion Hg; subst cs w0. rewrite Hk in Hc.
    apply bind_ok_inv in Hc. destruct Hc as (a & w1 & Hd & Hc).
    apply bind_ok_inv in Hc. destruct Hc as (cs' & w2 & Hg' & Hc).
    inversion Hg'; subst cs' w2.
    apply bind_ok_inv in Hc. destruct Hc as (u & w3 & Hs & Hc).
    inversion Hs; subst w3.
    pose proof (keeps_ok (keeps_cells_do_compile N dom0 seed rng fn) Hd) as Ec.
    destruct (do_compile_inv _ _ _ _ _ _ Hd) as [-> Ht].
    pose proof (keeps_ok (keeps_compiled_steps draw quiet_cells _ _ _ fn dom)
                  Hc) as Ec'.
    pose proof (keeps_ok (keeps_compiled_steps draw quiet_traces _ _ _ fn dom)
                  Hc) as Et'.
    simpl in Ec', Et'. split.
    + rewrite Ec', Ec. apply (nth_error_update _ _ _ Hk).
    + rewrite Et'. exact Ht.
  - intros k a c fn dom w Hk.
    destruct c as [b N seed rng | k' N dom0 seed rng]; simpl.
    + rewrite (keeps_compiled_steps draw quiet_cells). exact Hk.
    + unfold bind at 1. unfold get at 1.
      destruct (nth_error (cells w) k') as [[a'|]|] eqn:Hk'.
      * rewrite (keeps_compiled_steps draw quiet_cells). exact Hk.
      * assert (Hne : k <> k') by (intro; subst; congruence).
        unfold bind at 1.
        destruct (do_compile draw N dom0 seed rng fn w) as [[a0|e] w1] eqn:Hd;
          pose proof (keeps_ok (keeps_cells_do_compile N dom0 seed rng fn) Hd)
            as Ec.
        -- unfold bind at 1. unfold get at 1.
           unfold bind at 1. unfold set_cells at 1.
           rewrite (keeps_compiled_steps draw quiet_cells). simpl.
           rewrite Ec, (nth_error_update_other _ _ Hne). exact Hk.
        -- simpl. rewrite Ec. exact Hk.
      * exact Hk.
  - intros k a N dom0 seed rng fn dom w Hk.
    assert (Hc : call draw (lazy_compiled_integrate k N dom0 seed rng) fn dom w
                 = compiled_steps draw (step1_N a) (step1_seed a) (step1_rng a)
                     fn dom w).
    { simpl. unfold bind at 1. unfold get at 1. rewrite Hk. reflexivity. }
    split; [exact Hc|]. rewrite Hc.
    apply (keeps_compiled_steps draw quiet_traces).
Qed.

End Properties.

(** ** Concrete runs *)

(** The validation boundaries of the specification, on the code. *)
Example validation_boundaries :
  _check_inputs (Some 1%Z) (Some (PyInt 0)) (Some (PyList [[0; 1]]))
    = Raise (ValueError E_N) /\
  _check_inputs (Some 1%Z) (Some (PyInt (-5))) (Some (PyList [[0; 1]]))
    = Raise (ValueError E_N) /\
  _check_inputs (Some 1%Z) (Some (PyFloat (3 # 2))) (Some (PyList [[0; 1]]))
    = Raise (ValueError E_N) /\
  _check_inputs (Some 1%Z) (Some (PyInt 10)) (Some (PyList [[2; 1]]))
    = Raise (ValueError E_BOUND) /\
  _check_inputs (Some 2%Z) (Some (PyInt 10))
    (Some (PyList [[0; 1]; [0; 1]; [0; 1]]))
    = Raise (ValueError E_DIM_MATCH) /\
  _check_inputs (Some 0%Z) (Some (PyInt 10)) None = Raise (ValueError E_DIM) /\
  _check_inputs (Some 1%Z) (Some (PyInt 10)) (Some (PyList [[0; 1]])) = Ok tt.
Proof. repeat split. Qed.

(** Without a seed the outcome follows the state of the unseeded generator:
    the determinism of seeded runs is not an artefact of the embedding. *)
Example unseeded_runs_differ :
  fst (integrate lcg first_coordinate 1 (PyInt 1) (Some (PyList [[0; 1]]))
         None None torch (mkWorld BaseIntegrator_init 7%Z [] [] []))
  <> fst (integrate lcg first_coordinate 1 (PyInt 1) (Some (PyList [[0; 1]]))
            None None torch (mkWorld BaseIntegrator_init 8%Z [] [] [])).
Proof. vm_compute. intro H. discriminate H. Qed.

(** A caller-owned generator is advanced by the call and keeps its state. *)
Example caller_rng_advances :
  gens (snd (calculate_sample_points lcg (PyInt 1)
               (mkTensor torch float32 (A2 [[0; 1]])) None (Some 0%nat)
               world_with_generator))
  = [(11 * 1103515245 + 12345) mod 2147483648]%Z.
Proof. vm_compute. reflexivity. Qed.

Lemma calculate_result_formula_witness :
  [2; 2] <> [] /\
  exists r,
    calculate_result (PyTensor (mkTensor numpy float32 (A1 [2; 2])))
      (mkTensor numpy float64 (A2 (map pair_row [(0, 2); (0, 3)]))) = Ok r /\
    t_arr r =
      A0 (Qprod (map (fun p => snd p - fst p) [(0, 2); (0, 3)]) * Qsum [2; 2]
          / inject_Z (Z.of_nat (length [2; 2]))) /\
    (numpy = numpy -> numpy = numpy -> t_dtype r = float32).
Proof.
  split; [discriminate|].
  apply (@calculate_result_formula numpy float64 numpy float32
           [(0, 2); (0, 3)] [2; 2]).
  - discriminate.
  - left. reflexivity.
Defined.

(** On numpy, integer function values [1, 1] over [[0, 0.5]] give 0, not
    0.5 * 2 / 2: the quotient is cast to their dtype. *)
Lemma numpy_integer_values_are_truncated :
  calculate_result (PyTensor (mkTensor numpy int64 (A1 [1; 1])))
    (mkTensor numpy float64 (A2 (map pair_row [(0, 1 # 2)])))
  = Ok (mkTensor numpy int64 (A0 0)) /\
  ~ 0 == Qprod (map (fun p => snd p - fst p) [(0, 1 # 2)]) * Qsum [1; 1]
         / inject_Z (Z.of_nat (length [1; 1])).
Proof.
  split; [vm_compute; reflexivity|]. intro H. vm_compute in H. discriminate H.
Qed.

Lemma box_2_3_ordered : Forall (fun p : Q * Q => fst p <= snd p) [(0, 2); (0, 3)].
Proof. repeat constructor; unfold Qle; simpl; lia. Qed.



Lemma calculate_sample_points_table_witness :
  exists rows w',
    calculate_sample_points lcg (PyInt 2)
      (mkTensor torch float32 (A2 (map pair_row [(0, 2); (1, 3)])))
      (Some 0%Z) None fresh_world
    = (Ok (mkTensor torch float32 (A2 rows)), w') /\
    length rows = Z.to_nat 2 /\
    Forall (fun row => length row = length [(0, 2); (1, 3)]) rows /\
    (forall i d lo hi,
        (i < Z.to_nat 2)%nat ->
        nth_error [(0, 2); (1, 3)] d = Some (lo, hi) ->
        nth d (nth i rows []) 0
        = nth i (nth d (batches lcg 0%Z (length [(0, 2); (1, 3)])
                          (Z.to_nat 2)) []) 0
          * (hi - lo) + lo) /\
    log w' = log fresh_world
             ++ repeat (EvUniform (Z.to_nat 2)) (length [(0, 2); (1, 3)]).
Proof.
  apply (@calculate_sample_points_table lcg 2 [(0, 2); (1, 3)] torch float32
           (Some 0%Z) None fresh_world 0%Z).
  - lia.
  - discriminate.
  - reflexivity.
Defined.

Lemma evaluation_counter_witness :
  _nr_of_fevals
    (self (snd (integrate lcg first_coordinate 1 (PyInt 3)
                  (Some (PyList [[0; 1]])) (Some 0%Z) None torch fresh_world)))
  = 3%Z.
Proof.
  destruct (evaluation_counter lcg) as (_ & H & _).
  assert (E : integrate lcg first_coordinate 1 (PyInt 3)
                (Some (PyList [[0; 1]])) (Some 0%Z) None torch fresh_world
              = (Ok (mkTensor torch float32
                       (A0 (9507123202280625509240930304
                            # 29710560942849126597578981376))),
                 snd (integrate lcg first_coordinate 1 (PyInt 3)
                        (Some (PyList [[0; 1]])) (Some 0%Z) None torch
                        fresh_world)))
    by (vm_compute; reflexivity).
  destruct (H _ _ _ _ _ _ _ _ _ _ E) as (z & HN & _ & _ & Hf).
  inversion HN; subst z. apply Hf. reflexivity.
Defined.

Lemma integrate_validates_eagerly_witness :
  exists code,
    integrate lcg first_coordinate 2 (PyFloat (3 # 2))
      (Some (PyList [[0; 1]; [0; 1]])) None None torch fresh_world
    = (Raise (ValueError code), fresh_world).
Proof.
  apply (@integrate_validates_eagerly lcg first_coordinate 2 (PyFloat (3 # 2))
           (Some (PyList [[0; 1]; [0; 1]])) None None torch fresh_world).
  - simpl. discriminate.
  - right. left. intros (z & Hz & _). discriminate Hz.
Defined.

(** A request with both a seed and a generator is granted. *)
Lemma jit_integrate_grants_seed_and_rng :
  jit_integrate 1 (PyInt 2) (Some (PyList [[0; 1]])) (Some 1%Z) (Some 0%nat)
    torch world_with_generator
  = (Ok (lazy_compiled_integrate 0 (PyInt 2)
           (mkTensor torch float32 (A2 [[0; 1]])) (Some 1%Z) (Some 0%nat)),
     mkWorld BaseIntegrator_init 7%Z [11%Z] [None] []).
Proof. vm_compute. reflexivity. Qed.

Lemma seed_and_rng_conflict_witness :
  fst (call lcg
         (lazy_compiled_integrate 0 (PyInt 2)
            (mkTensor torch float32 (A2 [[0; 1]])) (Some 1%Z) (Some 0%nat))
         first_coordinate (mkTensor torch float32 (A2 [[0; 1]]))
         (mkWorld BaseIntegrator_init 7%Z [11%Z] [None] []))
  = Raise (ValueError E_SEED_RNG).
Proof.
  destruct (seed_and_rng_conflict lcg) as (_ & _ & H).
  assert (E : jit_integrate 1 (PyInt 2) (Some (PyList [[0; 1]])) (Some 1%Z)
                (Some 0%nat) torch world_with_generator
              = (Ok (lazy_compiled_integrate 0 (PyInt 2)
                       (mkTensor torch float32 (A2 [[0; 1]])) (Some 1%Z)
                       (Some 0%nat)),
                 mkWorld BaseIntegrator_init 7%Z [11%Z] [None] []))
    by (vm_compute; reflexivity).
  destruct (H _ _ _ _ _ _ _ _ _ E) as [Hn Hc].
  apply Hc. exact Hn.
Defined.

(** One integrator instance, two requests, one invocation each: two
    artifacts have been built, by four calls of [torch.jit.trace]. *)
Lemma two_artifacts_for_one_instance :
  built_artifacts (snd two_requests_run) = 2%nat /\
  n_traces (log (snd two_requests_run)) = 4%nat /\
  self (snd two_requests_run) = BaseIntegrator_init.
Proof. vm_compute. repeat split. Qed.

Lemma lazy_compilation_per_callable_witness :
  log (snd (jit_integrate 1 (PyInt 2) (Some (PyList [[0; 1]])) (Some 0%Z) None
              torch fresh_world)) = log fresh_world /\
  nth_error
    (cells (snd (jit_integrate 1 (PyInt 2) (Some (PyList [[0; 1]]))
                   (Some 0%Z) None torch fresh_world))) 0
  = Some None.
Proof.
  destruct (lazy_compilation_per_callable lcg) as (H & _).
  assert (E : jit_integrate 1 (PyInt 2) (Some (PyList [[0; 1]])) (Some 0%Z)
                None torch fresh_world
              = (Ok (lazy_compiled_integrate 0 (PyInt 2)
                       (mkTensor torch float32 (A2 [[0; 1]])) (Some 0%Z) None),
                 snd (jit_integrate 1 (PyInt 2) (Some (PyList [[0; 1]]))
                        (Some 0%Z) None torch fresh_world)))
    by (vm_compute; reflexivity).
  destruct (H _ _ _ _ _ _ _ _ _ E) as (Hl & Hn & _).
  split; [exact Hl | exact Hn].
Defined.



(** * Further properties of the two modules *)

(** ** What [_check_inputs] accepts, and which error it raises *)

Lemma check_bounds_valid rows :
  Forall valid_bounds rows -> check_bounds rows = Ok tt.
Proof.
  induction 1 as [|r rows (lo & hi & -> & Hle) _ IH]; simpl; [reflexivity|].
  apply Qle_bool_iff in Hle. rewrite Hle. simpl. exact IH.
Qed.

Lemma check_bounds_ok_inv rows :
  check_bounds rows = Ok tt -> Forall valid_bounds rows.
Proof.
  induction rows as [|r rows IH]; intro H; [constructor|].
  simpl in H.
  destruct (Nat.eqb (length r) 2) eqn:Hlen; simpl in H; [|discriminate].
  destruct (Qle_bool (nth 0 r 0) (nth 1 r 0)) eqn:Hle; simpl in H;
    [|discriminate].
  constructor; [|apply IH; exact H].
  apply Nat.eqb_eq in Hlen. apply Qle_bool_iff in Hle.
  destruct r as [|lo [|hi [|x r]]]; try discriminate Hlen.
  exists lo, hi. split; [reflexivity | exact Hle].
Qed.

(** X1. [_check_inputs] accepts exactly the valid inputs: it returns
    without an exception if and only if [dim] is at least 1, [N] is an
    [int] that is at least 1, and the domain, when one is given, is a list
    of lists or a table with [dim] rows, each a pair with lower <= upper
    (a pair with lower = upper is accepted). *)
Theorem check_inputs_accepts_iff dim N d :
  _check_inputs (Some dim) (Some N) d = Ok tt <-> valid_inputs dim N d.
Proof.
  split.
  - unfold _check_inputs. intro H.
    destruct (dim <? 1)%Z eqn:Hdim; [discriminate|].
    apply Z.ltb_ge in Hdim.
    destruct d as [d|].
    + destruct (domain_len d) as [n|e] eqn:Hn; simpl in H; [|discriminate].
      destruct (dim =? Z.of_nat n)%Z eqn:Hlen; simpl in H; [|discriminate].
      apply Z.eqb_eq in Hlen.
      destruct (N_rejected N) eqn:HN; simpl in H; [discriminate|].
      split; [exact Hdim|]. split; [apply N_accepted_positive; exact HN|].
      destruct d as [rows|t]; simpl in *.
      * inversion Hn; subst n. exists rows. split; [reflexivity|].
        split; [symmetry; exact Hlen | apply check_bounds_ok_inv; exact H].
      * destruct (t_arr t) as [x|xs|rows]; simpl in Hn.
        -- discriminate Hn.
        -- inversion Hn; subst n. destruct xs; [simpl in Hlen; lia|].
           discriminate H.
        -- inversion Hn; subst n. exists rows. split; [reflexivity|].
           split; [symmetry; exact Hlen | apply check_bounds_ok_inv; exact H].
    + simpl in H.
      destruct (N_rejected N) eqn:HN; simpl in H; [discriminate|].
      split; [exact Hdim|]. split; [apply N_accepted_positive; exact HN|].
      exact I.
  - intros (Hdim & (z & -> & Hz) & Hd). unfold _check_inputs.
    replace (dim <? 1)%Z with false by (symmetry; apply Z.ltb_ge; exact Hdim).
    destruct d as [d|].
    + destruct Hd as (rows & Hrows & Hlen & Hb).
      rewrite (domain_len_rows _ Hrows). simpl.
      rewrite Hlen, Z.eqb_refl. simpl.
      rewrite (positive_N_accepted Hz). simpl.
      rewrite (check_domain_bounds_rows _ Hrows).
      apply check_bounds_valid. exact Hb.
    + simpl. rewrite (positive_N_accepted Hz). reflexivity.
Qed.

Lemma positive_rejected N : ~ positive_integer N -> N_rejected N = true.
Proof.
  intro H. destruct (N_rejected N) eqn:HN; [reflexivity|].
  exfalso. apply H. apply N_accepted_positive. exact HN.
Qed.

(** X2. When several inputs are wrong, [_check_inputs] reports the first in
    a fixed order: a dimension below 1 whatever the rest; otherwise a domain
    whose length is not [dim]; otherwise an [N] which is not a positive
    [int]; and a bad bound pair only when everything before it is right. *)
Theorem check_inputs_first_error dim N d rows :
  domain_rows d = Some rows ->
  ((dim < 1)%Z ->
     _check_inputs (Some dim) (Some N) (Some d) = Raise (ValueError E_DIM)) /\
  ((1 <= dim)%Z -> Z.of_nat (length rows) <> dim ->
     _check_inputs (Some dim) (Some N) (Some d)
     = Raise (ValueError E_DIM_MATCH)) /\
  ((1 <= dim)%Z -> Z.of_nat (length rows) = dim -> ~ positive_integer N ->
     _check_inputs (Some dim) (Some N) (Some d) = Raise (ValueError E_N)) /\
  ((1 <= dim)%Z -> Z.of_nat (length rows) = dim -> positive_integer N ->
     Exists bad_bounds rows ->
     _check_inputs (Some dim) (Some N) (Some d) = Raise (ValueError E_BOUND)).
Proof.
  intro Hrows. unfold _check_inputs.
  rewrite (domain_len_rows _ Hrows), (check_domain_bounds_rows _ Hrows).
  repeat split.
  - intro Hdim. apply Z.ltb_lt in Hdim. rewrite Hdim. reflexivity.
  - intros Hdim Hlen. apply Z.ltb_ge in Hdim. rewrite Hdim. simpl.
    replace (dim =? Z.of_nat (length rows))%Z with false
      by (symmetry; apply Z.eqb_neq; congruence).
    reflexivity.
  - intros Hdim Hlen HN. apply Z.ltb_ge in Hdim. rewrite Hdim. simpl.
    rewrite Hlen, Z.eqb_refl. simpl.
    rewrite (positive_rejected HN). reflexivity.
  - intros Hdim Hlen (z & -> & Hz) Hbad. apply Z.ltb_ge in Hdim.
    rewrite Hdim. simpl. rewrite Hlen, Z.eqb_refl. simpl.
    rewrite (positive_N_accepted Hz). simpl.
    apply check_bounds_bad. exact Hbad.
Qed.

(** ** Requests to [jit_integrate] *)

(** X3. [jit_integrate] validates like [integrate]: with a dimension below
    1, a domain of another length than [dim], an [N] which is not a positive
    [int] or a bad bound pair, the request raises a [ValueError] and leaves
    the world as it was: no wrapper is cached and no cell is allocated. *)
Theorem jit_request_validates_eagerly dim N d seed rng backend w :
  wellformed_domain d -> invalid_inputs dim N d ->
  exists code,
    jit_integrate dim N d seed rng backend w = (Raise (ValueError code), w).
Proof.
  intros Hwf Hinv.
  destruct (check_inputs_rejects Hwf Hinv) as [code Hc].
  exists code. unfold jit_integrate.
  apply bind_raise. unfold lift. rewrite Hc. reflexivity.
Qed.


(** X5. A request to [jit_integrate], whatever its outcome, leaves the
    evaluation counter, the generators and the call log alone (nothing is
    drawn, evaluated or traced), and it creates the tensorflow or jax
    wrappers at most once per instance: a wrapper that exists stays, and a
    second request with the same arguments leaves the instance as the first
    one left it. *)
Theorem jit_integrate_instance_effects dim N d seed rng backend w r w1 :
  jit_integrate dim N d seed rng backend w = (r, w1) ->
  _nr_of_fevals (self w1) = _nr_of_fevals (self w) /\
  global_gen w1 = global_gen w /\ gens w1 = gens w /\ log w1 = log w /\
  (_tf_jit_calculate_sample_points (self w) = true ->
     _tf_jit_calculate_sample_points (self w1) = true) /\
  (_jax_jit_calculate_sample_points (self w) = true ->
     _jax_jit_calculate_sample_points (self w1) = true) /\
  self (snd (jit_integrate dim N d seed rng backend w1)) = self w1.
Proof.
  unfold jit_integrate. rewrite !bind_lift.
  destruct (_check_inputs (Some dim) (Some N) d) as [[]|e].
  2:{ intro H. inversion H; subst. repeat split; auto. }
  rewrite ?bind_lift.
  destruct (_setup_integration_domain dim d backend) as [t|e].
  2:{ intro H. inversion H; subst. repeat split; auto. }
  destruct (infer_backend t); unfold bind, get, set_cells, set_self, ret, raise;
    simpl.
  - intro H. inversion H; subst. simpl. repeat split; auto.
  - intro H. inversion H; subst. repeat split; auto.
  - destruct (_tf_jit_calculate_sample_points (self w)) eqn:Hf,
      (_tf_jit_calculate_result (self w)) eqn:Hg; simpl;
      intro H; inversion H; subst; simpl; rewrite ?Hf, ?Hg; simpl;
      repeat split; auto.
  - destruct (_jax_jit_calculate_sample_points (self w)) eqn:Hf,
      (_jax_jit_calculate_result (self w)) eqn:Hg; simpl;
      intro H; inversion H; subst; simpl; rewrite ?Hf, ?Hg; simpl;
      rewrite ?Hg; repeat split; auto.
Qed.

(** ** The reduction step, in exact arithmetic *)

Lemma Qsum_acc xs : forall a, fold_left Qplus xs a == a + Qsum xs.
Proof.
  unfold Qsum. induction xs as [|x xs IH]; intro a; simpl.
  - ring.
  - rewrite (IH (a + x)), (IH (0 + x)). ring.
Qed.

Lemma Qsum_cons x xs : Qsum (x :: xs) == x + Qsum xs.
Proof. unfold Qsum at 1. simpl. rewrite Qsum_acc. ring. Qed.

Lemma length_lincomb a b : forall fs gs,
  length fs = length gs -> length (lincomb a b fs gs) = length fs.
Proof.
  induction fs as [|f fs IH]; intros [|g gs] H; simpl in *;
    try reflexivity; try discriminate H.
  rewrite IH by congruence. reflexivity.
Qed.

Lemma Qsum_lincomb a b : forall fs gs,
  length fs = length gs ->
  Qsum (lincomb a b fs gs) == a * Qsum fs + b * Qsum gs.
Proof.
  induction fs as [|f fs IH]; intros [|g gs] H; simpl in *;
    try discriminate H.
  - unfold Qsum. simpl. ring.
  - rewrite !Qsum_cons, IH by congruence. ring.
Qed.

Lemma reduction_lincomb a b pairs fs gs :
  length fs = length gs ->
  reduction pairs (lincomb a b fs gs)
  == a * reduction pairs fs + b * reduction pairs gs.
Proof.
  intro H. unfold reduction.
  rewrite (length_lincomb a b _ _ H), (Qsum_lincomb a b _ _ H), <- H.
  unfold Qdiv. ring.
Qed.

(** X6. [calculate_result] is linear in the function values (in exact
    arithmetic): over one domain, for non-empty vectors of floating dtype
    (or of any dtype when the domain is not on numpy), the result for the
    values a * f + b * g is a times the result for f plus b times the
    result for g. *)
Theorem calculate_result_linear a b bk (dt : any_dtype) bf (df : any_dtype)
    bg (dg : any_dtype) pairs fs gs :
  length fs = length gs -> fs <> [] ->
  (is_floating df = true /\ is_floating dg = true) \/ bk <> numpy ->
  exists rf rg rh qf qg qh,
    calculate_result (PyTensor (mkTensor bf df (A1 fs)))
      (mkTensor bk dt (A2 (map pair_row pairs))) = Ok rf /\
    calculate_result (PyTensor (mkTensor bg dg (A1 gs)))
      (mkTensor bk dt (A2 (map pair_row pairs))) = Ok rg /\
    calculate_result (PyTensor (mkTensor bf df (A1 (lincomb a b fs gs))))
      (mkTensor bk dt (A2 (map pair_row pairs))) = Ok rh /\
    t_arr rf = A0 qf /\ t_arr rg = A0 qg /\ t_arr rh = A0 qh /\
    qh == a * qf + b * qg.
Proof.
  intros H _ Hk.
  assert (Hdf : is_floating df = true \/ bk <> numpy) by tauto.
  assert (Hdg : is_floating dg = true \/ bk <> numpy) by tauto.
  destruct (@calculate_result_value bk dt bf df pairs fs Hdf)
    as (rf & Hf & Af).
  destruct (@calculate_result_value bk dt bg dg pairs gs Hdg)
    as (rg & Hg & Ag).
  destruct (@calculate_result_value bk dt bf df pairs (lincomb a b fs gs) Hdf)
    as (rh & Hh & Ah).
  exists rf, rg, rh, (reduction pairs fs), (reduction pairs gs),
    (reduction pairs (lincomb a b fs gs)).
  repeat split; try assumption.
  apply reduction_lincomb. exact H.
Qed.

Lemma Qprod_acc_nonneg xs : forall a,
  0 <= a -> Forall (fun x => 0 <= x) xs -> 0 <= fold_left Qmult xs a.
Proof.
  induction xs as [|x xs IH]; intros a Ha Hx; simpl; [exact Ha|].
  inversion Hx; subst. apply IH; [|assumption].
  apply Qmult_le_0_compat; assumption.
Qed.

Lemma volume_nonneg pairs :
  Forall (fun p => fst p <= snd p) pairs -> 0 <= volume pairs.
Proof.
  intro H. unfold volume, Qprod.
  apply Qprod_acc_nonneg; [discriminate|].
  apply Forall_forall. intros x Hx. apply in_map_iff in Hx.
  destruct Hx as (p & <- & Hp). rewrite Forall_forall in H.
  specialize (H p Hp). unfold Qminus. apply -> Qle_minus_iff. exact H.
Qed.

Lemma inject_Z_succ n :
  inject_Z (Z.of_nat (S n)) == inject_Z (Z.of_nat n) + 1.
Proof.
  rewrite Nat2Z.inj_succ. unfold Z.succ. rewrite inject_Z_plus. reflexivity.
Qed.

Lemma Qsum_bounds m M xs :
  Forall (fun x => m <= x /\ x <= M) xs ->
  inject_Z (Z.of_nat (length xs)) * m <= Qsum xs /\
  Qsum xs <= inject_Z (Z.of_nat (length xs)) * M.
Proof.
  induction 1 as [|x xs [Hm HM] _ [IHm IHM]].
  - unfold Qsum. simpl. split; apply Qle_lteq; right; ring.
  - simpl length. rewrite Qsum_cons, inject_Z_succ. split.
    + setoid_replace ((inject_Z (Z.of_nat (length xs)) + 1) * m)
        with (m + inject_Z (Z.of_nat (length xs)) * m) by ring.
      apply Qplus_le_compat; assumption.
    + setoid_replace ((inject_Z (Z.of_nat (length xs)) + 1) * M)
        with (M + inject_Z (Z.of_nat (length xs)) * M) by ring.
      apply Qplus_le_compat; assumption.
Qed.

Lemma reduction_bounds m M pairs fvs :
  fvs <> [] ->
  Forall (fun p => fst p <= snd p) pairs ->
  Forall (fun x => m <= x /\ x <= M) fvs ->
  m * volume pairs <= reduction pairs fvs /\
  reduction pairs fvs <= M * volume pairs.
Proof.
  intros Hne Hb Hx.
  pose proof (volume_nonneg Hb) as Hv.
  destruct (Qsum_bounds Hx) as [Hlo Hhi].
  assert (Hn : 0 < inject_Z (Z.of_nat (length fvs))).
  { destruct fvs; [congruence|]. unfold Qlt. simpl. lia. }
  unfold reduction. split.
  - apply Qle_shift_div_l; [exact Hn|].
    setoid_replace (m * volume pairs * inject_Z (Z.of_nat (length fvs)))
      with (inject_Z (Z.of_nat (length fvs)) * m * volume pairs) by ring.
    setoid_replace (volume pairs * Qsum fvs)
      with (Qsum fvs * volume pairs) by ring.
    apply Qmult_le_compat_r; assumption.
  - apply Qle_shift_div_r; [exact Hn|].
    setoid_replace (M * volume pairs * inject_Z (Z.of_nat (length fvs)))
      with (inject_Z (Z.of_nat (length fvs)) * M * volume pairs) by ring.
    setoid_replace (volume pairs * Qsum fvs)
      with (Qsum fvs * volume pairs) by ring.
    apply Qmult_le_compat_r; assumption.
Qed.

(** X7. The estimate is the volume times a mean, so it lies between the
    volume times the least and the volume times the greatest function
    value: for a box with lower <= upper in every dimension and a non-empty
    vector of values between m and M which has a floating dtype (or any
    dtype when the domain is not on numpy), [calculate_result] returns a
    value between m * volume and M * volume (in exact arithmetic). *)
Theorem calculate_result_between m M bk (dt : any_dtype) bf (df : any_dtype)
    pairs fvs :
  fvs <> [] ->
  is_floating df = true \/ bk <> numpy ->
  Forall (fun p => fst p <= snd p) pairs ->
  Forall (fun x => m <= x /\ x <= M) fvs ->
  exists r q,
    calculate_result (PyTensor (mkTensor bf df (A1 fvs)))
      (mkTensor bk dt (A2 (map pair_row pairs))) = Ok r /\
    t_arr r = A0 q /\ m * volume pairs <= q /\ q <= M * volume pairs.
Proof.
  intros Hne Hk Hb Hx.
  destruct (@calculate_result_value bk dt bf df pairs fvs Hk) as (r & Hr & Ha).
  destruct (reduction_bounds Hne Hb Hx) as [Hlo Hhi].
  exists r, (reduction pairs fvs). repeat split; assumption.
Qed.

(** X8. For function values and a domain on one backend, what
    [calculate_result] returns, when it returns, is a 0-d tensor on that
    backend, and on numpy it has the dtype of the function values, whatever
    that dtype is: the quotient is cast back whenever its dtype differs
    from theirs. *)
Theorem calculate_result_dtype fv dom r :
  t_backend fv = t_backend dom ->
  calculate_result (PyTensor fv) dom = Ok r ->
  t_backend r = t_backend dom /\
  (exists q, t_arr r = A0 q) /\
  (infer_backend dom = numpy -> t_dtype r = t_dtype fv).
Proof.
  unfold calculate_result, quotient_kind, infer_backend. intro Hsame.
  destruct (arr_column 1 (t_arr dom)) as [upper|e]; [|discriminate].
  destruct (arr_column 0 (t_arr dom)) as [lower|e]; [|discriminate].
  simpl.
  destruct (shape0 (t_arr fv)) as [n|e]; [|discriminate]. simpl.
  rewrite Hsame.
  destruct (t_backend dom), (t_dtype dom) as [[]| |],
    (t_dtype fv) as [[]| |]; simpl;
    intro H; inversion H; subst; simpl;
    (split; [reflexivity|]; split; [eexists; reflexivity|]);
    intro Hb; try discriminate Hb; reflexivity.
Qed.

Lemma Qprod_acc_zero xs : forall a, a == 0 -> fold_left Qmult xs a == 0.
Proof.
  induction xs as [|x xs IH]; intros a Ha; simpl; [exact Ha|].
  apply IH. rewrite Ha. ring.
Qed.

Lemma Qprod_factor_zero xs :
  Exists (fun x => x == 0) xs -> forall a, fold_left Qmult xs a == 0.
Proof.
  induction 1 as [x xs Hx | x xs _ IH]; intro a; simpl.
  - apply Qprod_acc_zero. rewrite Hx. ring.
  - apply IH.
Qed.

Lemma volume_degenerate pairs :
  Exists (fun p => fst p == snd p) pairs -> volume pairs == 0.
Proof.
  intro H. unfold volume, Qprod. apply Qprod_factor_zero.
  apply Exists_exists in H. destruct H as (p & Hp & Heq).
  apply Exists_exists. exists (snd p - fst p). split.
  - apply in_map_iff. exists p. split; [reflexivity | exact Hp].
  - rewrite Heq. ring.
Qed.

Section MoreProperties.

Variable draw : rng_state -> Q * rng_state.

(** ** Whole runs of [integrate] *)

Lemma integrate_pairs_returns (fn : integrand) N pairs seed rng backend w g v :
  (1 <= N)%Z -> pairs <> [] -> Forall (fun p => fst p <= snd p) pairs ->
  generator seed rng w = Some g ->
  fn (mkTensor backend (default_dtype backend)
        (A2 (sample_table draw g pairs (Z.to_nat N)))) = Ok v ->
  exists w',
    integrate draw fn (Z.of_nat (length pairs)) (PyInt N)
      (Some (PyList (map pair_row pairs))) seed rng backend w
    = (calculate_result v
         (mkTensor backend (default_dtype backend) (A2 (map pair_row pairs))),
       w') /\
    _nr_of_fevals (self w') = (_nr_of_fevals (self w) + N)%Z.
Proof.
  intros HN Hne Hb Hg Hfn. unfold integrate.
  rewrite bind_lift, (check_inputs_pairs HN Hne Hb).
  rewrite bind_lift. simpl _setup_integration_domain. cbv iota.
  destruct (@calculate_sample_points_ok draw N pairs backend
              (default_dtype backend) seed rng w g) as (w1 & Hc & _);
    [lia | exact Hne | exact Hg |].
  pose proof (@keeps_ok _ _ _ _ _ _ _
                (keeps_calculate_sample_points draw quiet_self _ _ _ _) Hc) as Hs.
  rewrite (bind_ok _ _ _ _ _ Hc).
  unfold evaluate_integrand, bind, emit, lift, get, set_self, ret. simpl.
  unfold sample_table in Hfn. rewrite Hfn. simpl.
  eexists. split; [reflexivity|]. simpl.
  rewrite rows_of_columns_length, Hs. lia.
Qed.

Lemma integrate_pairs_integrand_raises (fn : integrand) N pairs seed rng
    backend w g e :
  (1 <= N)%Z -> pairs <> [] -> Forall (fun p => fst p <= snd p) pairs ->
  generator seed rng w = Some g ->
  fn (mkTensor backend (default_dtype backend)
        (A2 (sample_table draw g pairs (Z.to_nat N)))) = Raise e ->
  exists w',
    integrate draw fn (Z.of_nat (length pairs)) (PyInt N)
      (Some (PyList (map pair_row pairs))) seed rng backend w
    = (Raise e, w') /\
    self w' = self w.
Proof.
  intros HN Hne Hb Hg Hfn. unfold integrate.
  rewrite bind_lift, (check_inputs_pairs HN Hne Hb).
  rewrite bind_lift. simpl _setup_integration_domain. cbv iota.
  destruct (@calculate_sample_points_ok draw N pairs backend
              (default_dtype backend) seed rng w g) as (w1 & Hc & _);
    [lia | exact Hne | exact Hg |].
  pose proof (@keeps_ok _ _ _ _ _ _ _
                (keeps_calculate_sample_points draw quiet_self _ _ _ _) Hc) as Hs.
  rewrite (bind_ok _ _ _ _ _ Hc).
  unfold evaluate_integrand, bind, emit, lift, get, set_self, ret. simpl.
  unfold sample_table in Hfn. rewrite Hfn. simpl.
  eexists. split; [reflexivity|]. exact Hs.
Qed.

(** X9. An exception after the sampling is not undone and the counter
    follows the evaluation, not the result: when the integrand raises,
    [integrate] raises the same exception and the counter keeps its value;
    when the integrand returns and [calculate_result] then raises,
    [integrate] raises that exception with the counter already advanced by
    [N]. *)
Theorem integrate_counter_on_failure (fn : integrand) N pairs seed rng
    backend w g :
  (1 <= N)%Z -> pairs <> [] -> Forall (fun p => fst p <= snd p) pairs ->
  generator seed rng w = Some g ->
  (forall e,
      fn (mkTensor backend (default_dtype backend)
            (A2 (sample_table draw g pairs (Z.to_nat N)))) = Raise e ->
      exists w',
        integrate draw fn (Z.of_nat (length pairs)) (PyInt N)
          (Some (PyList (map pair_row pairs))) seed rng backend w
        = (Raise e, w') /\
        _nr_of_fevals (self w') = _nr_of_fevals (self w)) /\
  (forall v e,
      fn (mkTensor backend (default_dtype backend)
            (A2 (sample_table draw g pairs (Z.to_nat N)))) = Ok v ->
      calculate_result v
        (mkTensor backend (default_dtype backend) (A2 (map pair_row pairs)))
      = Raise e ->
      exists w',
        integrate draw fn (Z.of_nat (length pairs)) (PyInt N)
          (Some (PyList (map pair_row pairs))) seed rng backend w
        = (Raise e, w') /\
        _nr_of_fevals (self w') = (_nr_of_fevals (self w) + N)%Z).
Proof.
  intros HN Hne Hb Hg. split.
  - intros e Hfn.
    destruct (integrate_pairs_integrand_raises fn seed rng backend w
                HN Hne Hb Hg Hfn) as (w' & Hi & Hs).
    exists w'. split; [exact Hi | rewrite Hs; reflexivity].
  - intros v e Hfn Hcr.
    destruct (integrate_pairs_returns fn seed rng backend w
                HN Hne Hb Hg Hfn) as (w' & Hi & Hcnt).
    exists w'. split; [rewrite Hi, Hcr; reflexivity | exact Hcnt].
Qed.

(** X10. A box with lower = upper in some dimension is accepted and has
    volume 0: for every integrand which returns a non-empty vector of
    floating dtype (or of any dtype off numpy), [integrate] returns 0 over
    it (in exact arithmetic). *)
Theorem integrate_degenerate_box (fn : integrand) N pairs seed rng backend
    w g bf (df : any_dtype) fvs :
  (1 <= N)%Z -> Forall (fun p => fst p <= snd p) pairs ->
  Exists (fun p => fst p == snd p) pairs ->
  generator seed rng w = Some g ->
  fn (mkTensor backend (default_dtype backend)
        (A2 (sample_table draw g pairs (Z.to_nat N))))
  = Ok (PyTensor (mkTensor bf df (A1 fvs))) ->
  fvs <> [] ->
  is_floating df = true \/ backend <> numpy ->
  exists r q,
    fst (integrate draw fn (Z.of_nat (length pairs)) (PyInt N)
           (Some (PyList (map pair_row pairs))) seed rng backend w) = Ok r /\
    t_arr r = A0 q /\ q == 0.
Proof.
  intros HN Hb Hz Hg Hfn _ Hk.
  assert (Hne : pairs <> []) by (destruct Hz; discriminate).
  destruct (integrate_pairs_returns fn seed rng backend w HN Hne Hb Hg Hfn)
    as (w' & Hi & _).
  destruct (@calculate_result_value backend (default_dtype backend) bf df
              pairs fvs Hk) as (r & Hr & Ha).
  exists r, (reduction pairs fvs).
  split; [rewrite Hi; exact Hr|]. split; [exact Ha|].
  unfold reduction. rewrite (volume_degenerate Hz). unfold Qdiv. ring.
Qed.

(** X11. With a seed, [integrate] is linear in the integrand (in exact
    arithmetic), for integrands which return non-empty vectors of floating
    dtype (or of any dtype off numpy): the three calls draw the same sample
    points, whatever state each starts from, so the result for a * f + b * g
    is a times the result for f plus b times the result for g. *)
Theorem integrate_linear_seeded (f h : integrand) a b N pairs s backend
    wf wh wc bf (df : any_dtype) fs bh (dh : any_dtype) hs :
  (1 <= N)%Z -> pairs <> [] -> Forall (fun p => fst p <= snd p) pairs ->
  f (mkTensor backend (default_dtype backend)
       (A2 (sample_table draw s pairs (Z.to_nat N))))
  = Ok (PyTensor (mkTensor bf df (A1 fs))) ->
  h (mkTensor backend (default_dtype backend)
       (A2 (sample_table draw s pairs (Z.to_nat N))))
  = Ok (PyTensor (mkTensor bh dh (A1 hs))) ->
  length fs = length hs -> fs <> [] ->
  (is_floating df = true /\ is_floating dh = true) \/ backend <> numpy ->
  exists rf rh rc qf qh qc,
    fst (integrate draw f (Z.of_nat (length pairs)) (PyInt N)
           (Some (PyList (map pair_row pairs))) (Some s) None backend wf)
    = Ok rf /\
    fst (integrate draw h (Z.of_nat (length pairs)) (PyInt N)
           (Some (PyList (map pair_row pairs))) (Some s) None backend wh)
    = Ok rh /\
    fst (integrate draw (lincomb_integrand a b f h)
           (Z.of_nat (length pairs)) (PyInt N)
           (Some (PyList (map pair_row pairs))) (Some s) None backend wc)
    = Ok rc /\
    t_arr rf = A0 qf /\ t_arr rh = A0 qh /\ t_arr rc = A0 qc /\
    qc == a * qf + b * qh.
Proof.
  intros HN Hne Hb Hf Hh Hlen _ Hk.
  assert (Hdf : is_floating df = true \/ backend <> numpy) by tauto.
  assert (Hdh : is_floating dh = true \/ backend <> numpy) by tauto.
  assert (Hg : forall w, generator (Some s) None w = Some s) by reflexivity.
  destruct (integrate_pairs_returns f (Some s) None backend wf
              HN Hne Hb (Hg wf) Hf) as (wf' & Hif & _).
  destruct (integrate_pairs_returns h (Some s) None backend wh
              HN Hne Hb (Hg wh) Hh) as (wh' & Hih & _).
  assert (Hc : lincomb_integrand a b f h
                 (mkTensor backend (default_dtype backend)
                    (A2 (sample_table draw s pairs (Z.to_nat N))))
               = Ok (PyTensor (mkTensor bf df (A1 (lincomb a b fs hs)))))
    by (unfold lincomb_integrand; rewrite Hf, Hh; reflexivity).
  destruct (integrate_pairs_returns _ (Some s) None backend wc
              HN Hne Hb (Hg wc) Hc) as (wc' & Hic & _).
  destruct (@calculate_result_value backend (default_dtype backend) bf df
              pairs fs Hdf) as (rf & Hrf & Af).
  destruct (@calculate_result_value backend (default_dtype backend) bh dh
              pairs hs Hdh) as (rh & Hrh & Ah).
  destruct (@calculate_result_value backend (default_dtype backend) bf df
              pairs (lincomb a b fs hs) Hdf) as (rc & Hrc & Ac).
  exists rf, rh, rc, (reduction pairs fs), (reduction pairs hs),
    (reduction pairs (lincomb a b fs hs)).
  rewrite Hif, Hih, Hic. repeat split; try assumption.
  apply reduction_lincomb. exact Hlen.
Qed.

End MoreProperties.

Section MoreSampling.

Variable draw : rng_state -> Q * rng_state.

(** ** More on the sample generator *)

Lemma sample_table_entry g pairs n i d lo hi :
  (i < n)%nat -> nth_error pairs d = Some (lo, hi) ->
  nth d (nth i (sample_table draw g pairs n) []) 0
  = nth i (nth d (batches draw g (length pairs) n) []) 0 * (hi - lo) + lo.
Proof.
  intros Hi Hd. unfold sample_table.
  assert (Hdlt : (d < length pairs)%nat)
    by (apply nth_error_Some; congruence).
  rewrite rows_of_columns_nth by exact Hi.
  rewrite (nth_map_in (fun c => nth i c 0) _ 0 [])
    by (rewrite columns_length; exact Hdlt).
  erewrite columns_nth by exact Hd.
  apply (nth_map_in (fun u => u * (hi - lo) + lo)).
  rewrite batches_height by exact Hdlt. exact Hi.
Qed.

Lemma uniform_all (P : Q -> Prop) :
  (forall g, P (fst (draw g))) ->
  forall n g, Forall P (fst (uniform draw g n)).
Proof.
  intros HP. induction n as [|n IH]; intro g; simpl; [constructor|].
  specialize (HP g). destruct (draw g) as [u g1]. specialize (IH g1).
  destruct (uniform draw g1 n) as [us g2]. simpl in *.
  constructor; assumption.
Qed.

Lemma batches_all (P : Q -> Prop) n :
  (forall g, P (fst (draw g))) ->
  forall dim g d, (d < dim)%nat -> Forall P (nth d (batches draw g dim n) []).
Proof.
  intros HP. induction dim as [|dim IH]; intros g d Hd; [lia|]. simpl.
  pose proof (uniform_all P HP n g) as Hu.
  destruct (uniform draw g n) as [us g']. simpl in Hu.
  destruct d as [|d]; simpl; [exact Hu|]. apply IH. lia.
Qed.

Lemma scaled_within lo hi u :
  lo <= hi -> 0 <= u -> u <= 1 ->
  lo <= u * (hi - lo) + lo /\ u * (hi - lo) + lo <= hi.
Proof.
  intros Hle H0 H1.
  assert (Hd : 0 <= hi - lo)
    by (unfold Qminus; apply -> Qle_minus_iff; exact Hle).
  split.
  - apply Qle_trans with (0 + lo); [apply Qle_lteq; right; ring|].
    apply Qplus_le_compat; [|apply Qle_refl].
    apply Qmult_le_0_compat; assumption.
  - apply Qle_trans with (1 * (hi - lo) + lo);
      [|apply Qle_lteq; right; ring].
    apply Qplus_le_compat; [|apply Qle_refl].
    apply Qmult_le_compat_r; assumption.
Qed.

(** X12. If the generator hands out values between 0 and 1, every sample
    point lies inside the box: for a positive [N] and bound pairs with
    lower <= upper, entry [d] of every row which [calculate_sample_points]
    returns is between lower_d and upper_d. *)
Theorem sample_points_within_bounds N pairs b (dt : dtype) seed rng w g :
  (forall g', 0 <= fst (draw g') /\ fst (draw g') <= 1) ->
  (1 <= N)%Z -> pairs <> [] -> Forall (fun p => fst p <= snd p) pairs ->
  generator seed rng w = Some g ->
  exists rows w',
    calculate_sample_points draw (PyInt N)
      (mkTensor b dt (A2 (map pair_row pairs))) seed rng w
    = (Ok (mkTensor b dt (A2 rows)), w') /\
    forall i d lo hi,
      (i < Z.to_nat N)%nat -> nth_error pairs d = Some (lo, hi) ->
      lo <= nth d (nth i rows []) 0 /\ nth d (nth i rows []) 0 <= hi.
Proof.
  intros Hunit HN Hne Hb Hg.
  destruct (@calculate_sample_points_ok draw N pairs b dt seed rng w g)
    as (w' & Hc & _); [lia | exact Hne | exact Hg |].
  exists (sample_table draw g pairs (Z.to_nat N)), w'.
  split; [exact Hc|].
  intros i d lo hi Hi Hd.
  rewrite (@sample_table_entry g pairs (Z.to_nat N) i d lo hi Hi Hd).
  assert (Hdlt : (d < length pairs)%nat)
    by (apply nth_error_Some; congruence).
  pose proof (@batches_all (fun u => 0 <= u /\ u <= 1) (Z.to_nat N) Hunit
                (length pairs) g d Hdlt) as Hall.
  rewrite Forall_forall in Hall.
  assert (Hin : In (nth i (nth d (batches draw g (length pairs)
                                    (Z.to_nat N)) []) 0)
                  (nth d (batches draw g (length pairs) (Z.to_nat N)) []))
    by (apply nth_In; rewrite batches_height by exact Hdlt; exact Hi).
  destruct (Hall _ Hin) as [H0 H1].
  apply scaled_within; try assumption.
  rewrite Forall_forall in Hb.
  apply (Hb (lo, hi)). apply (nth_error_In _ _ Hd).
Qed.

Lemma update_same {A} (l : list A) : forall r x,
  nth_error l r = Some x -> update r x l = l.
Proof.
  induction l as [|a l IH]; intros r x H.
  - destruct r; reflexivity.
  - destruct r as [|r]; simpl in *.
    + inversion H. reflexivity.
    + rewrite (IH _ _ H). reflexivity.
Qed.

Lemma update_update {A} (l : list A) : forall r x y,
  update r x (update r y l) = update r x l.
Proof.
  induction l as [|a l IH]; intros r x y.
  - destruct r; reflexivity.
  - destruct r as [|r]; simpl; [reflexivity|]. rewrite IH. reflexivity.
Qed.

Lemma rng_uniform_caller r N w g :
  (0 <= N)%Z -> nth_error (gens w) r = Some g ->
  rng_uniform draw (CallerRNG r) (PyInt N) w
  = (Ok (fst (uniform draw g (Z.to_nat N)), CallerRNG r),
     mkWorld (self w) (global_gen w)
       (update r (snd (uniform draw g (Z.to_nat N))) (gens w))
       (cells w) (log w ++ [EvUniform (Z.to_nat N)])).
Proof.
  intros HN Hg. unfold rng_uniform, size_of.
  replace (N <? 0)%Z with false by (symmetry; apply Z.ltb_ge; exact HN).
  unfold bind, lift, emit, get. simpl. rewrite Hg.
  destruct (uniform draw g (Z.to_nat N)) as [us g']. reflexivity.
Qed.

Lemma sample_loop_caller r N b dt : forall suf pre acc w g,
  (0 <= N)%Z -> nth_error (gens w) r = Some g ->
  sample_loop draw (seq (length pre) (length suf)) (PyInt N)
    (mkTensor b dt (A2 (map pair_row (pre ++ suf)))) (CallerRNG r) acc w
  = (Ok (acc ++ columns draw g suf (Z.to_nat N)),
     mkWorld (self w) (global_gen w)
       (update r (after_batches draw g (length suf) (Z.to_nat N)) (gens w))
       (cells w)
       (log w ++ repeat (EvUniform (Z.to_nat N)) (length suf))).
Proof.
  induction suf as [|p suf IH]; intros pre acc w g HN Hg.
  - simpl. rewrite !app_nil_r, (update_same _ _ Hg). destruct w; reflexivity.
  - cbn [length seq sample_loop columns after_batches repeat].
    rewrite (bind_ok _ _ w (snd p) w)
      by (unfold lift; rewrite index_pair by lia; reflexivity).
    rewrite (bind_ok _ _ w (fst p) w)
      by (unfold lift; rewrite index_pair by lia; reflexivity).
    rewrite (bind_ok _ _ w (fst p) w)
      by (unfold lift; rewrite index_pair by lia; reflexivity).
    rewrite (bind_ok _ _ _ _ _ (@rng_uniform_caller r N w g HN Hg)).
    destruct (uniform draw g (Z.to_nat N)) as [us g'] eqn:Hu. simpl fst.
    simpl snd.
    specialize (IH (pre ++ [p])
                  (acc ++ [map (fun u => u * (snd p - fst p) + fst p) us])
                  (mkWorld (self w) (global_gen w) (update r g' (gens w))
                     (cells w) (log w ++ [EvUniform (Z.to_nat N)]))
                  g' HN).
    rewrite length_app in IH. simpl in IH.
    rewrite Nat.add_1_r, <- !app_assoc in IH. simpl in IH.
    rewrite IH by (apply (nth_error_update _ _ _ Hg)).
    rewrite update_update. reflexivity.
Qed.

(** X13. A generator which the caller supplies is drawn from in place: a
    call of [calculate_sample_points] leaves it [dim] batches of [N] draws
    further and touches nothing else (not the unseeded generator, the
    instance or the caches), so a second call with the same generator
    continues the stream where the first one stopped. *)
Theorem caller_generator_stream N pairs b (dt : dtype) r w g :
  (1 <= N)%Z -> pairs <> [] -> nth_error (gens w) r = Some g ->
  exists w1 w2,
    calculate_sample_points draw (PyInt N)
      (mkTensor b dt (A2 (map pair_row pairs))) None (Some r) w
    = (Ok (mkTensor b dt (A2 (sample_table draw g pairs (Z.to_nat N)))), w1) /\
    gens w1
    = update r (after_batches draw g (length pairs) (Z.to_nat N)) (gens w) /\
    global_gen w1 = global_gen w /\ self w1 = self w /\ cells w1 = cells w /\
    calculate_sample_points draw (PyInt N)
      (mkTensor b dt (A2 (map pair_row pairs))) None (Some r) w1
    = (Ok (mkTensor b dt
             (A2 (sample_table draw
                    (after_batches draw g (length pairs) (Z.to_nat N))
                    pairs (Z.to_nat N)))), w2).
Proof.
  intros HN Hne Hg.
  assert (H0 : (0 <= N)%Z) by lia.
  assert (Hrun : forall w0 g0,
             nth_error (gens w0) r = Some g0 ->
             calculate_sample_points draw (PyInt N)
               (mkTensor b dt (A2 (map pair_row pairs))) None (Some r) w0
             = (Ok (mkTensor b dt
                      (A2 (sample_table draw g0 pairs (Z.to_nat N)))),
                mkWorld (self w0) (global_gen w0)
                  (update r (after_batches draw g0 (length pairs) (Z.to_nat N))
                     (gens w0))
                  (cells w0)
                  (log w0 ++ repeat (EvUniform (Z.to_nat N)) (length pairs)))).
  { intros w0 g0 Hg0. unfold calculate_sample_points.
    rewrite bind_ret.
    rewrite (bind_ok _ _ w0 (length pairs) w0)
      by (unfold lift; simpl; rewrite length_map; reflexivity).
    pose proof (@sample_loop_caller r N b dt pairs [] [] w0 g0 H0 Hg0) as Hs.
    simpl in Hs. rewrite (bind_ok _ _ _ _ _ Hs).
    pose proof (columns_height draw (Z.to_nat N) pairs g0) as Hh.
    pose proof (columns_length draw (Z.to_nat N) pairs g0) as Hlen.
    unfold sample_table.
    destruct (columns draw g0 pairs (Z.to_nat N)) as [|c cols] eqn:Hc.
    - destruct pairs; [congruence | discriminate Hlen].
    - unfold bind, lift. rewrite (stack_axis1_ok Hh). reflexivity. }
  do 2 eexists. split; [apply (Hrun w g Hg)|]. simpl.
  repeat split.
  apply Hrun. simpl. apply (nth_error_update _ _ _ Hg).
Qed.

End MoreSampling.

Section MoreCompiled.

Variable draw : rng_state -> Q * rng_state.

(** ** More on the compiled callables *)

Lemma inverted_pair_bad pairs :
  Exists (fun p => snd p < fst p) pairs ->
  Exists bad_bounds (map pair_row pairs).
Proof.
  intro H. apply Exists_exists in H. destruct H as (p & Hp & Hlt).
  apply Exists_exists. exists (pair_row p). split.
  - apply in_map. exact Hp.
  - right. exists (fst p), (snd p). split; [reflexivity | exact Hlt].
Qed.

Lemma compiled_steps_pairs (fn : integrand) N seed rng pairs bk dt w g v :
  (0 <= N)%Z -> pairs <> [] -> generator seed rng w = Some g ->
  fn (mkTensor bk dt (A2 (sample_table draw g pairs (Z.to_nat N)))) = Ok v ->
  fst (compiled_steps draw (PyInt N) seed rng fn
         (mkTensor bk dt (A2 (map pair_row pairs))) w)
  = calculate_result v (mkTensor bk dt (A2 (map pair_row pairs))).
Proof.
  intros HN Hne Hg Hfn. unfold compiled_steps.
  destruct (@calculate_sample_points_ok draw N pairs bk dt seed rng w g)
    as (w1 & Hc & _); [exact HN | exact Hne | exact Hg |].
  rewrite (bind_ok _ _ _ _ _ Hc).
  unfold evaluate_integrand, bind, emit, lift, get, ret. simpl.
  unfold sample_table in Hfn. rewrite Hfn. reflexivity.
Qed.

(** X14. The callable of the tensorflow/jax branch does not validate the
    domain it is called with: a table with lower > upper in some dimension,
    which [integrate] refuses with a [ValueError] before sampling, is
    sampled and reduced by the callable like any other. *)
Theorem compiled_call_skips_validation (fn : integrand) b N seed rng pairs
    bk (dt : dtype) w g bf (df : dtype) fvs :
  (1 <= N)%Z -> pairs <> [] -> generator seed rng w = Some g ->
  Exists (fun p => snd p < fst p) pairs ->
  fn (mkTensor bk dt (A2 (sample_table draw g pairs (Z.to_nat N))))
  = Ok (PyTensor (mkTensor bf df (A1 fvs))) ->
  (exists code,
      integrate draw fn (Z.of_nat (length pairs)) (PyInt N)
        (Some (BackendTensor (mkTensor bk dt (A2 (map pair_row pairs)))))
        seed rng bk w
      = (Raise (ValueError code), w)) /\
  (exists r,
      fst (call draw (compiled_integrate b (PyInt N) seed rng) fn
             (mkTensor bk dt (A2 (map pair_row pairs))) w) = Ok r /\
      t_arr r = A0 (reduction pairs fvs)).
Proof.
  intros HN Hne Hg Hinv Hfn. split.
  - assert (Hrej : exists code,
               _check_inputs (Some (Z.of_nat (length pairs))) (Some (PyInt N))
                 (Some (BackendTensor
                          (mkTensor bk dt (A2 (map pair_row pairs)))))
               = Raise (ValueError code)).
    { apply check_inputs_rejects.
      - simpl. discriminate.
      - right. right. exists (BackendTensor
                                (mkTensor bk dt (A2 (map pair_row pairs)))),
          (map pair_row pairs).
        split; [reflexivity|]. split; [reflexivity|]. right.
        apply inverted_pair_bad. exact Hinv. }
    destruct Hrej as [code Hc]. exists code. unfold integrate.
    apply bind_raise. unfold lift. rewrite Hc. reflexivity.
  - destruct (calculate_result_vector bk dt bf df pairs fvs)
      as (r & Hr & Ha).
    exists r. split; [|exact Ha]. simpl.
    assert (H0 : (0 <= N)%Z) by lia.
    rewrite (@compiled_steps_pairs fn N seed rng pairs bk dt w g _
               H0 Hne Hg Hfn).
    exact Hr.
Qed.

Lemma n_evals_app l1 l2 : n_evals (l1 ++ l2) = (n_evals l1 + n_evals l2)%nat.
Proof. unfold n_evals. rewrite filter_app, length_app. reflexivity. Qed.

Lemma emit_evals e w :
  n_evals (log (snd (emit e w)))
  = (n_evals (log w) + (if is_eval e then 1 else 0))%nat.
Proof.
  simpl. rewrite n_evals_app. unfold n_evals at 2. simpl.
  destruct (is_eval e); reflexivity.
Qed.

Lemma keeps_evals_emit_uniform n :
  keeps (fun w => n_evals (log w)) (emit (EvUniform n)).
Proof. intro w. rewrite emit_evals. simpl. lia. Qed.

Lemma keeps_evals_rng_uniform rng N :
  keeps (fun w => n_evals (log w)) (rng_uniform draw rng N).
Proof.
  unfold rng_uniform.
  repeat keeps_step; try apply keeps_evals_emit_uniform.
  - apply keeps_set_global_gen. reflexivity.
  - apply keeps_set_gens. reflexivity.
Qed.

Lemma keeps_evals_sample_loop ds N dom : forall rng acc,
  keeps (fun w => n_evals (log w)) (sample_loop draw ds N dom rng acc).
Proof.
  induction ds as [|d ds IH]; intros rng acc; simpl.
  - apply keeps_ret.
  - repeat keeps_step; try apply keeps_evals_rng_uniform. apply IH.
Qed.

Lemma keeps_evals_calculate_sample_points N dom seed rng :
  keeps (fun w => n_evals (log w)) (calculate_sample_points draw N dom seed rng).
Proof.
  unfold calculate_sample_points.
  repeat keeps_step; apply keeps_evals_sample_loop.
Qed.

Lemma evaluate_integrand_evals (fn : integrand) points w :
  n_evals (log (snd (evaluate_integrand fn points w)))
  = (n_evals (log w) + 1)%nat.
Proof.
  unfold evaluate_integrand, bind, emit, lift, get, ret. simpl.
  destruct (fn points); [destruct (shape0 (t_arr points))|]; simpl;
    rewrite n_evals_app; reflexivity.
Qed.

Lemma compiled_steps_evals N seed rng fn dom w r w' :
  compiled_steps draw N seed rng fn dom w = (Ok r, w') ->
  n_evals (log w') = (n_evals (log w) + 1)%nat.
Proof.
  unfold compiled_steps. intro H.
  apply bind_ok_inv in H. destruct H as (sp & w1 & H1 & H).
  apply bind_ok_inv in H. destruct H as ([fv n] & w2 & H2 & H).
  apply lift_ok_inv in H. destruct H as [_ ->].
  pose proof (@keeps_ok _ _ _ _ _ _ _
                (keeps_evals_calculate_sample_points N dom seed rng) H1) as E1.
  pose proof (evaluate_integrand_evals fn sp w1) as E2. rewrite H2 in E2.
  simpl in *. lia.
Qed.

Lemma do_compile_evals N dom seed rng fn w a w' :
  do_compile draw N dom seed rng fn w = (Ok a, w') ->
  n_evals (log w') = (n_evals (log w) + 1)%nat.
Proof.
  unfold do_compile. intro H.
  apply bind_ok_inv in H. destruct H as (u1 & w1 & H1 & H).
  apply bind_ok_inv in H. destruct H as (t1 & w2 & H2 & H).
  apply bind_ok_inv in H. destruct H as (sp & w3 & H3 & H).
  apply bind_ok_inv in H. destruct H as ([fv n] & w4 & H4 & H).
  apply bind_ok_inv in H. destruct H as (u2 & w5 & H5 & H).
  apply bind_ok_inv in H. destruct H as (r & w6 & H6 & H).
  apply lift_ok_inv in H6. destruct H6 as [_ ->].
  inversion H; subst a w'.
  pose proof (emit_evals (EvTrace 1) w) as E1. rewrite H1 in E1.
  pose proof (@keeps_ok _ _ _ _ _ _ _
                (keeps_evals_calculate_sample_points N dom seed rng) H2) as E2.
  pose proof (@keeps_ok _ _ _ _ _ _ _
                (keeps_evals_calculate_sample_points N dom seed rng) H3) as E3.
  pose proof (evaluate_integrand_evals fn sp w3) as E4. rewrite H4 in E4.
  pose proof (emit_evals (EvTrace 3) w4) as E5. rewrite H5 in E5.
  simpl in *. lia.
Qed.

(** X15. How often a compiled callable calls the integrand: an invocation
    which returns has called it once, except the first invocation of a torch
    callable, which has called it twice, once as the example for the tracing
    in [do_compile] and once for the result. *)
Theorem compiled_call_integrand_calls :
  (forall b N seed rng fn dom w r w',
      call draw (compiled_integrate b N seed rng) fn dom w = (Ok r, w') ->
      n_evals (log w') = (n_evals (log w) + 1)%nat) /\
  (forall k N dom0 seed rng fn dom w r w',
      nth_error (cells w) k = Some None ->
      call draw (lazy_compiled_integrate k N dom0 seed rng) fn dom w
      = (Ok r, w') ->
      n_evals (log w') = (n_evals (log w) + 2)%nat) /\
  (forall k a N dom0 seed rng fn dom w r w',
      nth_error (cells w) k = Some (Some a) ->
      call draw (lazy_compiled_integrate k N dom0 seed rng) fn dom w
      = (Ok r, w') ->
      n_evals (log w') = (n_evals (log w) + 1)%nat).
Proof.
  split; [|split].
  - intros b N seed rng fn dom w r w' H. simpl in H.
    apply (compiled_steps_evals _ _ _ _ _ _ H).
  - intros k N dom0 seed rng fn dom w r w' Hk Hc. simpl in Hc.
    apply bind_ok_inv in Hc. destruct Hc as (cs & w0 & Hg & Hc).
    inversion Hg; subst cs w0. rewrite Hk in Hc.
    apply bind_ok_inv in Hc. destruct Hc as (a & w1 & Hd & Hc).
    apply bind_ok_inv in Hc. destruct Hc as (cs' & w2 & Hg' & Hc).
    inversion Hg'; subst cs' w2.
    apply bind_ok_inv in Hc. destruct Hc as (u & w3 & Hs & Hc).
    inversion Hs; subst w3.
    apply do_compile_evals in Hd. apply compiled_steps_evals in Hc.
    simpl in Hc. lia.
  - intros k a N dom0 seed rng fn dom w r w' Hk Hc. simpl in Hc.
    apply bind_ok_inv in Hc. destruct Hc as (cs & w0 & Hg & Hc).
    inversion Hg; subst cs w0. rewrite Hk in Hc.
    apply (compiled_steps_evals _ _ _ _ _ _ Hc).
Qed.

(** X16. A compilation which fails is not cached: when [do_compile] raises
    on the first invocation of a torch callable (the example integrand
    raised, say), the invocation raises the same exception and the cell
    stays empty, so the next invocation compiles again. *)
Theorem failed_compile_not_cached k N dom0 seed rng fn dom w e w1 :
  nth_error (cells w) k = Some None ->
  do_compile draw N dom0 seed rng fn w = (Raise e, w1) ->
  call draw (lazy_compiled_integrate k N dom0 seed rng) fn dom w
  = (Raise e, w1) /\
  nth_error (cells w1) k = Some None.
Proof.
  intros Hk Hd. split.
  - simpl. unfold bind at 1. unfold get at 1. rewrite Hk.
    apply bind_raise. exact Hd.
  - rewrite (@keeps_ok _ _ _ _ _ _ _
               (keeps_cells_do_compile draw N dom0 seed rng fn) Hd).
    exact Hk.
Qed.

End MoreCompiled.

(** ** [enable_cuda] *)

Module CudaFacts.

Import String.
Import Cuda.
Local Open Scope string_scope.





End CudaFacts.

(** ** Concrete runs for the further properties *)

Lemma lcg_unit g : 0 <= fst (lcg g) /\ fst (lcg g) <= 1.
Proof.
  unfold lcg. simpl fst.
  pose proof (Z.mod_pos_bound (g * 1103515245 + 12345) 2147483648
                ltac:(lia)) as Hb.
  set (x := ((g * 1103515245 + 12345) mod 2147483648)%Z) in *.
  unfold Qle, Qdiv, Qmult, Qinv, inject_Z. simpl. lia.
Qed.

Lemma unit_box_ordered : Forall (fun p : Q * Q => fst p <= snd p) [(0, 1)].
Proof. repeat constructor; unfold Qle; simpl; lia. Qed.

Lemma check_inputs_accepts_iff_witness :
  _check_inputs (Some 2%Z) (Some (PyInt 50)) (Some (PyList [[0; 2]; [0; 3]]))
  = Ok tt.
Proof.
  apply (proj2 (check_inputs_accepts_iff 2 (PyInt 50)
                  (Some (PyList [[0; 2]; [0; 3]])))).
  split; [lia|]. split; [exists 50%Z; split; [reflexivity | lia]|].
  exists [[0; 2]; [0; 3]]. split; [reflexivity|]. split; [reflexivity|].
  repeat constructor.
  - exists 0, 2. split; [reflexivity | unfold Qle; simpl; lia].
  - exists 0, 3. split; [reflexivity | unfold Qle; simpl; lia].
Defined.

Lemma check_inputs_first_error_witness :
  _check_inputs (Some 0%Z) (Some (PyFloat (3 # 2))) (Some (PyList [[2; 1]]))
  = Raise (ValueError E_DIM).
Proof.
  destruct (@check_inputs_first_error 0 (PyFloat (3 # 2)) (PyList [[2; 1]])
              [[2; 1]] eq_refl) as (H & _).
  apply H. lia.
Defined.

Lemma jit_request_validates_eagerly_witness :
  exists code,
    jit_integrate 2 (PyInt 10) (Some (PyList [[0; 1]; [0; 1]; [0; 1]]))
      None None torch fresh_world
    = (Raise (ValueError code), fresh_world).
Proof.
  apply (@jit_request_validates_eagerly 2 (PyInt 10)
           (Some (PyList [[0; 1]; [0; 1]; [0; 1]])) None None torch
           fresh_world).
  - simpl. discriminate.
  - right. right. exists (PyList [[0; 1]; [0; 1]; [0; 1]]),
      [[0; 1]; [0; 1]; [0; 1]].
    split; [reflexivity|]. split; [reflexivity|]. left. simpl. lia.
Defined.


Lemma jit_integrate_instance_effects_witness :
  _tf_jit_calculate_sample_points
    (self (snd (jit_integrate 1 (PyInt 2)
                  (Some (BackendTensor
                           (mkTensor tensorflow float32 (A2 [[0; 1]]))))
                  None None torch fresh_world))) = true /\
  self (snd (jit_integrate 1 (PyInt 2)
               (Some (BackendTensor
                        (mkTensor tensorflow float32 (A2 [[0; 1]]))))
               None None torch
               (snd (jit_integrate 1 (PyInt 2)
                       (Some (BackendTensor
                                (mkTensor tensorflow float32 (A2 [[0; 1]]))))
                       None None torch fresh_world))))
  = self (snd (jit_integrate 1 (PyInt 2)
                 (Some (BackendTensor
                          (mkTensor tensorflow float32 (A2 [[0; 1]]))))
                 None None torch fresh_world)).
Proof.
  split; [reflexivity|].
  destruct (@jit_integrate_instance_effects 1 (PyInt 2)
              (Some (BackendTensor
                       (mkTensor tensorflow float32 (A2 [[0; 1]]))))
              None None torch fresh_world _ _ (surjective_pairing _))
    as (_ & _ & _ & _ & _ & _ & H).
  exact H.
Defined.

Lemma calculate_result_linear_witness :
  exists rf rg rh qf qg qh,
    calculate_result (PyTensor (mkTensor numpy float32 (A1 [1; 2])))
      (mkTensor numpy float64 (A2 (map pair_row [(0, 2)]))) = Ok rf /\
    calculate_result (PyTensor (mkTensor numpy float64 (A1 [3; 4])))
      (mkTensor numpy float64 (A2 (map pair_row [(0, 2)]))) = Ok rg /\
    calculate_result
      (PyTensor (mkTensor numpy float32 (A1 (lincomb 2 3 [1; 2] [3; 4]))))
      (mkTensor numpy float64 (A2 (map pair_row [(0, 2)]))) = Ok rh /\
    t_arr rf = A0 qf /\ t_arr rg = A0 qg /\ t_arr rh = A0 qh /\
    qh == 2 * qf + 3 * qg.
Proof.
  apply (@calculate_result_linear 2 3 numpy float64 numpy float32
           numpy float64 [(0, 2)] [1; 2] [3; 4]).
  - reflexivity.
  - discriminate.
  - left. split; reflexivity.
Defined.

Lemma calculate_result_between_witness :
  exists r q,
    calculate_result (PyTensor (mkTensor torch int64 (A1 [1; 2])))
      (mkTensor torch float32 (A2 (map pair_row [(0, 1)]))) = Ok r /\
    t_arr r = A0 q /\ 1 * volume [(0, 1)] <= q /\ q <= 2 * volume [(0, 1)].
Proof.
  apply (@calculate_result_between 1 2 torch float32 torch int64
           [(0, 1)] [1; 2]).
  - discriminate.
  - right. discriminate.
  - exact unit_box_ordered.
  - repeat constructor; unfold Qle; simpl; lia.
Defined.

Lemma calculate_result_dtype_witness :
  calculate_result (PyTensor (mkTensor numpy int64 (A1 [1; 1])))
    (mkTensor numpy float64 (A2 [[0; 1 # 2]]))
  = Ok (mkTensor numpy int64 (A0 0)) /\
  t_dtype (mkTensor numpy int64 (A0 0)) = int64.
Proof.
  split; [reflexivity|].
  destruct (@calculate_result_dtype
              (mkTensor numpy int64 (A1 [1; 1]))
              (mkTensor numpy float64 (A2 [[0; 1 # 2]]))
              (mkTensor numpy int64 (A0 0))
              eq_refl eq_refl) as (_ & _ & H).
  apply H. reflexivity.
Defined.

Lemma integrate_counter_on_failure_witness :
  exists w',
    integrate lcg constant_two 2 (PyInt 50) (Some (PyList [[0; 2]; [0; 3]]))
      None None torch fresh_world
    = (Raise AttributeError, w') /\
    _nr_of_fevals (self w') = (_nr_of_fevals (self fresh_world) + 50)%Z.
Proof.
  destruct (@integrate_counter_on_failure lcg constant_two 50
              [(0, 2); (0, 3)] None None torch fresh_world 7%Z)
    as (_ & H).
  - lia.
  - discriminate.
  - exact box_2_3_ordered.
  - reflexivity.
  - apply (H (PyNumber 2) AttributeError); reflexivity.
Defined.

Lemma integrate_degenerate_box_witness :
  exists r q,
    fst (integrate lcg (constant_batch 5) 1 (PyInt 3)
           (Some (PyList [[1; 1]])) (Some 0%Z) None torch fresh_world) = Ok r /\
    t_arr r = A0 q /\ q == 0.
Proof.
  apply (@integrate_degenerate_box lcg (constant_batch 5) 3 [(1, 1)]
           (Some 0%Z) None torch fresh_world 0%Z torch float32
           (map (fun _ => 5) (sample_table lcg 0%Z [(1, 1)] 3))).
  - lia.
  - repeat constructor. unfold Qle; simpl; lia.
  - left. apply Qeq_refl.
  - reflexivity.
  - reflexivity.
  - discriminate.
  - left. reflexivity.
Defined.

Lemma integrate_linear_seeded_witness :
  exists rf rh rc qf qh qc,
    fst (integrate lcg first_coordinate 1 (PyInt 2)
           (Some (PyList [[0; 1]])) (Some 0%Z) None torch fresh_world)
    = Ok rf /\
    fst (integrate lcg (constant_batch 1) 1 (PyInt 2)
           (Some (PyList [[0; 1]])) (Some 0%Z) None torch world_with_generator)
    = Ok rh /\
    fst (integrate lcg (lincomb_integrand 2 3 first_coordinate
                          (constant_batch 1)) 1 (PyInt 2)
           (Some (PyList [[0; 1]])) (Some 0%Z) None torch world_with_empty_cell)
    = Ok rc /\
    t_arr rf = A0 qf /\ t_arr rh = A0 qh /\ t_arr rc = A0 qc /\
    qc == 2 * qf + 3 * qh.
Proof.
  apply (@integrate_linear_seeded lcg first_coordinate (constant_batch 1)
           2 3 2 [(0, 1)] 0%Z torch fresh_world world_with_generator
           world_with_empty_cell
           torch float32 (map (hd 0) (sample_table lcg 0%Z [(0, 1)] 2))
           torch float32 (map (fun _ => 1) (sample_table lcg 0%Z [(0, 1)] 2))).
  - lia.
  - discriminate.
  - exact unit_box_ordered.
  - reflexivity.
  - reflexivity.
  - reflexivity.
  - discriminate.
  - left. split; reflexivity.
Defined.

Lemma sample_points_within_bounds_witness :
  exists rows w',
    calculate_sample_points lcg (PyInt 2)
      (mkTensor torch float32 (A2 (map pair_row [(0, 1)])))
      (Some 0%Z) None fresh_world
    = (Ok (mkTensor torch float32 (A2 rows)), w') /\
    forall i d lo hi,
      (i < Z.to_nat 2)%nat -> nth_error [(0, 1)] d = Some (lo, hi) ->
      lo <= nth d (nth i rows []) 0 /\ nth d (nth i rows []) 0 <= hi.
Proof.
  apply (@sample_points_within_bounds lcg 2 [(0, 1)] torch float32
           (Some 0%Z) None fresh_world 0%Z).
  - exact lcg_unit.
  - lia.
  - discriminate.
  - exact unit_box_ordered.
  - reflexivity.
Defined.

Lemma caller_generator_stream_witness :
  exists w1 w2,
    calculate_sample_points lcg (PyInt 2)
      (mkTensor torch float32 (A2 (map pair_row [(0, 1)]))) None (Some 0%nat)
      world_with_generator
    = (Ok (mkTensor torch float32
             (A2 (sample_table lcg 11%Z [(0, 1)] (Z.to_nat 2)))), w1) /\
    gens w1
    = update 0 (after_batches lcg 11%Z (length [(0, 1)]) (Z.to_nat 2))
        (gens world_with_generator) /\
    global_gen w1 = global_gen world_with_generator /\
    self w1 = self world_with_generator /\
    cells w1 = cells world_with_generator /\
    calculate_sample_points lcg (PyInt 2)
      (mkTensor torch float32 (A2 (map pair_row [(0, 1)]))) None (Some 0%nat)
      w1
    = (Ok (mkTensor torch float32
             (A2 (sample_table lcg
                    (after_batches lcg 11%Z (length [(0, 1)]) (Z.to_nat 2))
                    [(0, 1)] (Z.to_nat 2)))), w2).
Proof.
  apply (@caller_generator_stream lcg 2 [(0, 1)] torch float32 0%nat
           world_with_generator 11%Z).
  - lia.
  - discriminate.
  - reflexivity.
Defined.

Lemma compiled_call_skips_validation_witness :
  (exists code,
      integrate lcg (constant_batch 1) 1 (PyInt 2)
        (Some (BackendTensor (mkTensor jax float32 (A2 [[1; 0]]))))
        (Some 0%Z) None jax fresh_world
      = (Raise (ValueError code), fresh_world)) /\
  (exists r,
      fst (call lcg (compiled_integrate jax (PyInt 2) (Some 0%Z) None)
             (constant_batch 1) (mkTensor jax float32 (A2 [[1; 0]]))
             fresh_world) = Ok r /\
      t_arr r = A0 (reduction [(1, 0)]
                      (map (fun _ => 1) (sample_table lcg 0%Z [(1, 0)] 2)))).
Proof.
  apply (@compiled_call_skips_validation lcg (constant_batch 1) jax 2
           (Some 0%Z) None [(1, 0)] jax float32 fresh_world 0%Z jax float32
           (map (fun _ => 1) (sample_table lcg 0%Z [(1, 0)] 2))).
  - lia.
  - discriminate.
  - reflexivity.
  - left. unfold Qlt. simpl. lia.
  - reflexivity.
Defined.

Lemma compiled_call_integrand_calls_witness :
  n_evals (log (snd (call lcg
                       (lazy_compiled_integrate 0 (PyInt 2)
                          (mkTensor torch float32 (A2 [[0; 1]]))
                          (Some 0%Z) None)
                       first_coordinate
                       (mkTensor torch float32 (A2 [[0; 1]]))
                       world_with_empty_cell)))
  = (n_evals (log world_with_empty_cell) + 2)%nat.
Proof.
  destruct (compiled_call_integrand_calls lcg) as (_ & H & _).
  destruct (call lcg
              (lazy_compiled_integrate 0 (PyInt 2)
                 (mkTensor torch float32 (A2 [[0; 1]])) (Some 0%Z) None)
              first_coordinate (mkTensor torch float32 (A2 [[0; 1]]))
              world_with_empty_cell) as [[r|e] w'] eqn:E.
  - simpl snd. eapply H; [|exact E]. reflexivity.
  - vm_compute in E. discriminate E.
Defined.

Lemma failed_compile_not_cached_witness :
  fst (call lcg
         (lazy_compiled_integrate 0 (PyInt 2)
            (mkTensor torch float32 (A2 [[0; 1]])) (Some 0%Z) None)
         raising_integrand (mkTensor torch float32 (A2 [[0; 1]]))
         world_with_empty_cell)
  = Raise (IntegrandError 1) /\
  nth_error
    (cells (snd (do_compile lcg (PyInt 2)
                   (mkTensor torch float32 (A2 [[0; 1]])) (Some 0%Z) None
                   raising_integrand world_with_empty_cell))) 0
  = Some None.
Proof.
  assert (E : do_compile lcg (PyInt 2) (mkTensor torch float32 (A2 [[0; 1]]))
                (Some 0%Z) None raising_integrand world_with_empty_cell
              = (Raise (IntegrandError 1),
                 snd (do_compile lcg (PyInt 2)
                        (mkTensor torch float32 (A2 [[0; 1]])) (Some 0%Z) None
                        raising_integrand world_with_empty_cell)))
    by (vm_compute; reflexivity).
  destruct (@failed_compile_not_cached lcg 0%nat (PyInt 2)
              (mkTensor torch float32 (A2 [[0; 1]])) (Some 0%Z) None
              raising_integrand (mkTensor torch float32 (A2 [[0; 1]]))
              world_with_empty_cell _ _ eq_refl E) as [Hc Hk].
  split; [rewrite Hc; reflexivity | exact Hk].
Defined.
